(** * drivers/staging/android/lowmemorykiller.c

    A shallow embedding of the Android low memory killer of the venturi
    kernel tree, built with CONFIG_ANDROID_LOW_MEMORY_KILLER_DO_NOT_KILL_PROCESS
    (three managed process types), and the properties of its shrinker
    callback [lowmem_shrink], of the exit notifier [task_notify_func] and of
    the do-not-kill classifier [is_in_donotkill_list].

    Conventions.
    - C integers are mathematical integers [Z]; every conversion that C
      performs between [int], [unsigned long] and [size_t] is written out
      ([to_int], [to_ulong]).  [int] is 32 bits wide; the width of [long]
      is the parameter [BITS_PER_LONG].
    - [lowmem_print] only writes to the kernel log and the tasklist and task
      locks only serialise the traversal: neither is modelled.
    - What the file takes from kernel headers that are not part of the
      source tree under study ([OOM_ADJUST_MAX], [HZ], [time_before_eq],
      [strstr]) is a parameter of the development. *)

From Stdlib Require Import ZArith List String Bool Lia Permutation.
Import ListNotations.

Local Open Scope Z_scope.

(** ** Machine integers *)

(** Conversion to [int]: the low 32 bits, read as two's complement. *)
Definition to_int (z : Z) : Z := (z + 2 ^ 31) mod 2 ^ 32 - 2 ^ 31.

(** Conversion to a [bits]-wide unsigned type ([unsigned long], [size_t]). *)
Definition to_unsigned (bits z : Z) : Z := z mod 2 ^ bits.

(** Conversion to a [bits]-wide signed type ([long]). *)
Definition to_signed (bits z : Z) : Z :=
  (z + 2 ^ (bits - 1)) mod 2 ^ bits - 2 ^ (bits - 1).

Definition INT_MAX : Z := 2 ^ 31 - 1.

(** ** Data model *)

(** [enum lowmem_process_type] *)
Inductive lowmem_process_type : Type :=
  | KILLABLE_PROCESS
  | DO_NOT_KILL_PROCESS
  | DO_NOT_KILL_SYSTEM_PROCESS.

Definition MANAGED_PROCESS_TYPES : Z := 3.
Definition MAX_NOT_KILLABLE_PROCESSES : Z := 25.

(** The value of the enumerator, as used in [proc_type < MANAGED_PROCESS_TYPES]. *)
Definition proc_type_index (t : lowmem_process_type) : Z :=
  match t with
  | KILLABLE_PROCESS => 0
  | DO_NOT_KILL_PROCESS => 1
  | DO_NOT_KILL_SYSTEM_PROCESS => 2
  end.

(** The enumerators in the order in which
    [for (proc_type = KILLABLE_PROCESS; proc_type < MANAGED_PROCESS_TYPES; proc_type++)]
    visits them. *)
Definition managed_process_types : list lowmem_process_type :=
  [KILLABLE_PROCESS; DO_NOT_KILL_PROCESS; DO_NOT_KILL_SYSTEM_PROCESS].

(** An array of [MANAGED_PROCESS_TYPES] cells indexed by the enumeration. *)
Record per_type (A : Type) : Type := mk_per_type {
  at_killable : A;
  at_donotkill : A;
  at_donotkill_sys : A
}.
Arguments mk_per_type {A} _ _ _.
Arguments at_killable {A} _.
Arguments at_donotkill {A} _.
Arguments at_donotkill_sys {A} _.

Definition get {A} (a : per_type A) (t : lowmem_process_type) : A :=
  match t with
  | KILLABLE_PROCESS => at_killable a
  | DO_NOT_KILL_PROCESS => at_donotkill a
  | DO_NOT_KILL_SYSTEM_PROCESS => at_donotkill_sys a
  end.

Definition set {A} (a : per_type A) (t : lowmem_process_type) (v : A) : per_type A :=
  match t with
  | KILLABLE_PROCESS => mk_per_type v (at_donotkill a) (at_donotkill_sys a)
  | DO_NOT_KILL_PROCESS => mk_per_type (at_killable a) v (at_donotkill_sys a)
  | DO_NOT_KILL_SYSTEM_PROCESS => mk_per_type (at_killable a) (at_donotkill a) v
  end.

Definition fill {A} (v : A) : per_type A := mk_per_type v v v.

(** [struct donotkill].  [names] holds the strings that the first slots of
    the pointer array point to; [names_count] is the counter that
    [module_param_array_named] maintains next to it. *)
Record donotkill : Type := mk_donotkill {
  enabled : Z;
  names : list string;
  names_count : Z
}.

(** The invariant [module_param_array_named] keeps: exactly the first
    [names_count] slots are set, and there are at most
    [MAX_NOT_KILLABLE_PROCESSES] of them. *)
Definition donotkill_wf (d : donotkill) : Prop :=
  names_count d = Z.of_nat (List.length (names d)) /\
  names_count d <= MAX_NOT_KILLABLE_PROCESSES.

(** The string [names[i]] points to. *)
Definition names_at (d : donotkill) (i : Z) : string :=
  nth (Z.to_nat i) (names d) EmptyString.

(** The module parameters: [lowmem_adj], [lowmem_minfree] with their
    counters, and the two do-not-kill lists. *)
Record module_params : Type := mk_params {
  lowmem_adj : list Z;
  lowmem_adj_size : Z;
  lowmem_minfree : list Z;
  lowmem_minfree_size : Z;
  donotkill_proc : donotkill;
  donotkill_sysproc : donotkill
}.

(** [ARRAY_SIZE(lowmem_adj)], from the declaration [lowmem_adj[6]]. *)
Definition ARRAY_SIZE_lowmem_adj : Z := 6.

Definition adj_at (P : module_params) (i : Z) : Z :=
  nth (Z.to_nat i) (lowmem_adj P) 0.

Definition minfree_at (P : module_params) (i : Z) : Z :=
  nth (Z.to_nat i) (lowmem_minfree P) 0.

(** The two file-scope variables of the cooldown.  A task pointer is the
    address of the task; [None] is NULL. *)
Record module_state : Type := mk_state {
  lowmem_deathpending : option Z;
  lowmem_deathpending_timeout : Z
}.

(** The state the module is loaded with (zero-initialised statics). *)
Definition initial_state : module_state := mk_state None 0.

(** What the scan reads of a task: [p->mm] with [get_mm_rss(mm)],
    [p->signal] with [sig->oom_adj], [p->pid] and [p->comm]. *)
Record mm_struct : Type := mk_mm { get_mm_rss : Z }.
Record signal_struct : Type := mk_signal { oom_adj : Z }.
Record task_struct : Type := mk_task {
  pid : Z;
  comm : string;
  mm : option mm_struct;
  signal : option signal_struct
}.

Inductive zone_stat_item : Type :=
  | NR_FREE_PAGES
  | NR_FILE_PAGES
  | NR_SHMEM
  | NR_ACTIVE_ANON
  | NR_ACTIVE_FILE
  | NR_INACTIVE_ANON
  | NR_INACTIVE_FILE.

(** What one call of the shrinker observes of the rest of the kernel. *)
Record kernel_view : Type := mk_view {
  jiffies : Z;
  global_page_state : zone_stat_item -> Z;
  tasks : list task_struct
}.

(** [struct shrink_control], of which only [nr_to_scan] is read for
    control flow.  The test [sc->nr_to_scan <= 0] is made on the number the
    field holds. *)
Record shrink_control : Type := mk_sc { nr_to_scan : Z }.

(** The three scan-local arrays of [lowmem_shrink]. *)
Record selection : Type := mk_selection {
  selected : per_type (option task_struct);
  selected_tasksize : per_type Z;
  selected_oom_score_adj : per_type Z
}.

(** The outcome of one call: the returned value, the file-scope variables
    afterwards and the task that was sent SIGKILL and flagged TIF_MEMDIE. *)
Record shrink_result : Type := mk_result {
  ret : Z;
  state_after : module_state;
  killed : option task_struct
}.

(** ** Kernel helpers used to instantiate the parameters *)

(** Modelled from the spec: strstr (lib/string.c) is not in the source tree;
    the spec describes the check as substring containment.  The result is
    the offset of the first occurrence of [needle] in [haystack], [None]
    for NULL. *)
Fixpoint c_strstr (haystack needle : string) : option nat :=
  if prefix needle haystack then Some O
  else match haystack with
       | EmptyString => None
       | String _ rest => option_map S (c_strstr rest needle)
       end.

(** Modelled from the spec: time_before_eq (linux/jiffies.h) is not in the
    source tree; the spec describes it as the pending kill being unexpired.
    As in the kernel, the comparison is made on the signed difference, so
    that it survives the wrap of the tick counter. *)
Definition linux_time_before_eq (bits a b : Z) : bool :=
  0 <=? to_signed bits (to_signed bits b - to_signed bits a).

(** [needle] occurs in [haystack]. *)
Definition occurs_in (needle haystack : string) : Prop :=
  exists pre post, haystack = (pre ++ needle ++ post)%string.

(** ** The driver *)

Section Lowmemorykiller.

#[local] Set Default Proof Using "Type".

Variable BITS_PER_LONG : Z.
Variable OOM_ADJUST_MAX : Z.
Variable HZ : Z.
Variable time_before_eq : Z -> Z -> bool.
Variable strstr : string -> string -> option nat.

Definition to_ulong (z : Z) : Z := to_unsigned BITS_PER_LONG z.

(** What the driver relies on of [strstr]: the result is not NULL exactly
    when [needle] occurs in [haystack]. *)
Definition strstr_contract : Prop :=
  forall haystack needle, strstr haystack needle <> None <-> occurs_in needle haystack.

(** *** is_in_donotkill_list *)

(** [for (i = 0; i < names_count; i++) if (strstr(names[i], proc_name) != NULL) return true;]
    with [n] iterations left and the counter at [i]. *)
Fixpoint donotkill_loop (n : nat) (i : Z) (proc_name : string) (d : donotkill) : bool :=
  match n with
  | O => false
  | S n' =>
      match strstr (names_at d i) proc_name with
      | Some _ => true
      | None => donotkill_loop n' (i + 1) proc_name d
      end
  end.

Definition is_in_donotkill_list (proc_name : string) (d : donotkill) : bool :=
  if negb (enabled d =? 0) && (0 <? names_count d)
  then donotkill_loop (Z.to_nat (names_count d)) 0 proc_name d
  else false.

Definition is_in_donotkill_proc_list (P : module_params) (proc_name : string) : bool :=
  is_in_donotkill_list proc_name (donotkill_proc P).

Definition is_in_donotkill_sysproc_list (P : module_params) (proc_name : string) : bool :=
  is_in_donotkill_list proc_name (donotkill_sysproc P).

(** The classification made inside the task loop of [lowmem_shrink]. *)
Definition classify (P : module_params) (proc_name : string) : lowmem_process_type :=
  if is_in_donotkill_proc_list P proc_name then DO_NOT_KILL_PROCESS
  else if is_in_donotkill_sysproc_list P proc_name then DO_NOT_KILL_SYSTEM_PROCESS
  else KILLABLE_PROCESS.

(** *** task_notify_func *)

Definition task_notify_func (task : Z) (g : module_state) : module_state :=
  match lowmem_deathpending g with
  | Some pending =>
      if task =? pending
      then mk_state None (lowmem_deathpending_timeout g)
      else g
  | None => g
  end.

(** *** lowmem_shrink: the cooldown test *)

(** [lowmem_deathpending && time_before_eq(jiffies, lowmem_deathpending_timeout)] *)
Definition death_outstanding (g : module_state) (k : kernel_view) : bool :=
  match lowmem_deathpending g with
  | Some _ => time_before_eq (jiffies k) (lowmem_deathpending_timeout g)
  | None => false
  end.

(** *** lowmem_shrink: the threshold walk *)

(** [array_size] after the two clamps. *)
Definition array_size (P : module_params) : Z :=
  let a := ARRAY_SIZE_lowmem_adj in
  let a := if lowmem_adj_size P <? a then lowmem_adj_size P else a in
  if lowmem_minfree_size P <? a then lowmem_minfree_size P else a.

(** The test of one entry.  [other_free] and [other_file] are [int], the
    entry is [size_t]: C compares them as [size_t]. *)
Definition below_minfree (P : module_params) (other_free other_file i : Z) : bool :=
  (to_ulong other_free <? minfree_at P i) && (to_ulong other_file <? minfree_at P i).

(** [for (i = 0; i < array_size; i++) if (...) { min_adj = lowmem_adj[i]; break; }]
    with [n] iterations left and the counter at [i].  The result is the
    final [min_adj] together with the indices whose entries were read, in
    the order in which they were read. *)
Fixpoint minfree_loop (n : nat) (i : Z) (P : module_params)
    (other_free other_file : Z) : Z * list Z :=
  match n with
  | O => (OOM_ADJUST_MAX + 1, [])
  | S n' =>
      if below_minfree P other_free other_file i
      then (adj_at P i, [i])
      else let r := minfree_loop n' (i + 1) P other_free other_file in
           (fst r, i :: snd r)
  end.

Definition threshold_walk (P : module_params) (other_free other_file : Z) : Z * list Z :=
  minfree_loop (Z.to_nat (array_size P)) 0 P other_free other_file.

(** [min_adj] when the walk is over. *)
Definition resolve_min_adj (P : module_params) (other_free other_file : Z) : Z :=
  fst (threshold_walk P other_free other_file).

(** The indices the walk evaluated. *)
Definition evaluated_entries (P : module_params) (other_free other_file : Z) : list Z :=
  snd (threshold_walk P other_free other_file).

(** *** lowmem_shrink: the task loop *)

Definition initial_selection (min_adj : Z) : selection :=
  mk_selection (fill None) (fill 0) (fill min_adj).

(** [tasksize] of a task with a memory context. *)
Definition tasksize_of (m : mm_struct) : Z := to_int (get_mm_rss m).

(** The body of [for_each_process(p)]. *)
Definition scan_task (P : module_params) (min_adj : Z)
    (st : selection) (p : task_struct) : selection :=
  match mm p, signal p with
  | Some m, Some sig =>
      if oom_adj sig <? min_adj then st
      else
        let tasksize := tasksize_of m in
        if tasksize <=? 0 then st
        else
          let proc_type := classify P (comm p) in
          let keep :=
            match get (selected st) proc_type with
            | Some _ =>
                (oom_adj sig <? get (selected_oom_score_adj st) proc_type)
                || ((oom_adj sig =? get (selected_oom_score_adj st) proc_type)
                    && (tasksize <=? get (selected_tasksize st) proc_type))
            | None => false
            end in
          if keep then st
          else mk_selection
                 (set (selected st) proc_type (Some p))
                 (set (selected_tasksize st) proc_type tasksize)
                 (set (selected_oom_score_adj st) proc_type (oom_adj sig))
  | _, _ => st
  end.

Definition scan_tasks (P : module_params) (min_adj : Z)
    (st : selection) (l : list task_struct) : selection :=
  fold_left (scan_task P min_adj) l st.

(** *** lowmem_shrink: the kill loop *)

(** [for (proc_type = KILLABLE_PROCESS; ...) if (selected[proc_type]) { ...; break; }]:
    the task that is killed and the [selected_tasksize] taken off [rem]. *)
Fixpoint kill_loop (types : list lowmem_process_type) (st : selection)
    : option (task_struct * Z) :=
  match types with
  | [] => None
  | proc_type :: rest =>
      match get (selected st) proc_type with
      | Some p => Some (p, get (selected_tasksize st) proc_type)
      | None => kill_loop rest st
      end
  end.

Definition select_victim (st : selection) : option task_struct :=
  option_map fst (kill_loop managed_process_types st).

(** *** lowmem_shrink *)

(** [rem] as first computed: the four LRU counters added as
    [unsigned long] and stored in an [int]. *)
Definition reclaimable (k : kernel_view) : Z :=
  to_int (to_ulong (global_page_state k NR_ACTIVE_ANON +
                    global_page_state k NR_ACTIVE_FILE +
                    global_page_state k NR_INACTIVE_ANON +
                    global_page_state k NR_INACTIVE_FILE)).

Definition other_free_of (k : kernel_view) : Z :=
  to_int (global_page_state k NR_FREE_PAGES).

Definition other_file_of (k : kernel_view) : Z :=
  to_int (to_ulong (global_page_state k NR_FILE_PAGES - global_page_state k NR_SHMEM)).

(** Everything after the cooldown test. *)
Definition scan_pass (P : module_params) (g : module_state)
    (sc : shrink_control) (k : kernel_view) : shrink_result :=
  let min_adj := resolve_min_adj P (other_free_of k) (other_file_of k) in
  let rem := reclaimable k in
  if (nr_to_scan sc <=? 0) || (min_adj =? OOM_ADJUST_MAX + 1)
  then mk_result rem g None
  else
    let st := scan_tasks P min_adj (initial_selection min_adj) (tasks k) in
    match kill_loop managed_process_types st with
    | Some (p, size) =>
        mk_result (to_int (rem - size))
                  (mk_state (lowmem_deathpending g) (to_ulong (jiffies k + HZ)))
                  (Some p)
    | None => mk_result rem g None
    end.

Definition lowmem_shrink (P : module_params) (g : module_state)
    (sc : shrink_control) (k : kernel_view) : shrink_result :=
  if death_outstanding g k then mk_result 0 g None
  else scan_pass P g sc k.

(** *** The module as a transition system *)

(** The states the two file-scope variables can be in: the module starts in
    [initial_state]; the shrinker may be called with any parameters and any
    view of the kernel, and the notifier with any task. *)
Inductive reachable : module_state -> Prop :=
  | reachable_init : reachable initial_state
  | reachable_shrink : forall g P sc k,
      reachable g -> reachable (state_after (lowmem_shrink P g sc k))
  | reachable_notify : forall g task,
      reachable g -> reachable (task_notify_func task g).


(** ** Vocabulary of the statements *)

(** A list protects a process name when it is switched on and the name
    occurs inside one of its entries. *)
Definition protects (d : donotkill) (proc_name : string) : Prop :=
  enabled d <> 0 /\ exists tok, In tok (names d) /\ occurs_in proc_name tok.

(** The reading of the check that the specification gives: the list is
    switched on, is not empty, and one of its entries occurs inside the
    process name. *)
Definition entry_inside_name (d : donotkill) (proc_name : string) : Prop :=
  enabled d <> 0 /\ 0 < names_count d /\
  exists tok, In tok (names d) /\ occurs_in tok proc_name.

(** A task that passes the three skips of the task loop is a candidate: it
    has a memory context and a signal structure, its [oom_adj] is not below
    [min_adj] and its [tasksize] is positive.  The result is its process
    type, its [oom_adj] and its [tasksize]. *)
Definition candidate_of (P : module_params) (min_adj : Z) (p : task_struct)
    : option (lowmem_process_type * Z * Z) :=
  match mm p, signal p with
  | Some m, Some sig =>
      if (oom_adj sig <? min_adj) || (tasksize_of m <=? 0) then None
      else Some (classify P (comm p), oom_adj sig, tasksize_of m)
  | _, _ => None
  end.

(** The task does not compete for the cells of process type [t]. *)
Definition not_candidate_for (P : module_params) (min_adj : Z)
    (t : lowmem_process_type) (p : task_struct) : Prop :=
  forall a s, candidate_of P min_adj p <> Some (t, a, s).

(** The cells of the three scan-local arrays for one process type. *)
Definition slot (st : selection) (t : lowmem_process_type) : option task_struct * Z * Z :=
  (get (selected st) t, get (selected_tasksize st) t, get (selected_oom_score_adj st) t).

(** The pass that [lowmem_shrink] makes when it goes as far as the task
    loop: the selection the loop ends with. *)
Definition final_selection (P : module_params) (k : kernel_view) : selection :=
  let min_adj := resolve_min_adj P (other_free_of k) (other_file_of k) in
  scan_tasks P min_adj (initial_selection min_adj) (tasks k).

(** The four LRU counters, added as numbers. *)
Definition lru_pages (k : kernel_view) : Z :=
  global_page_state k NR_ACTIVE_ANON + global_page_state k NR_ACTIVE_FILE +
  global_page_state k NR_INACTIVE_ANON + global_page_state k NR_INACTIVE_FILE.

(** [(a, s)] ranks above [(a', s')]: a greater [oom_adj], or the same
    [oom_adj] and a greater [tasksize].  This is the order in which the task
    loop lets a candidate take the place of the selected task. *)
Definition ranks_above (a s a' s' : Z) : Prop :=
  a' < a \/ (a' = a /\ s' < s).

(** [(a, s)] ranks above [(a', s')] or ties with it. *)
Definition ranks_no_lower (a s a' s' : Z) : Prop :=
  a' < a \/ (a' = a /\ s' <= s).

(** Entry [i] of the two threshold arrays is in use. *)
Definition in_use (P : module_params) (i : Z) : Prop :=
  0 <= i < array_size P.

(** The same view of the kernel with the tasks enumerated as [l]. *)
Definition with_tasks (k : kernel_view) (l : list task_struct) : kernel_view :=
  mk_view (jiffies k) (global_page_state k) l.

(** ** Sample parameters and kernel views *)

(** The parameters the module is compiled with: four thresholds, both
    do-not-kill lists switched off. *)
Definition default_params : module_params :=
  mk_params [0; 1; 6; 12; 0; 0] 4
            [3 * 512; 2 * 1024; 4 * 1024; 16 * 1024; 0; 0] 4
            (mk_donotkill 0 [] 0) (mk_donotkill 0 [] 0).

(** The default thresholds with a user list and a system list. *)
Definition protecting_params (user sys : list string) : module_params :=
  mk_params [0; 1; 6; 12; 0; 0] 4
            [3 * 512; 2 * 1024; 4 * 1024; 16 * 1024; 0; 0] 4
            (mk_donotkill 1 user (Z.of_nat (List.length user)))
            (mk_donotkill 1 sys (Z.of_nat (List.length sys))).

(** The table of the scenario in the specification: (priority, minfree)
    pairs (0,1536), (1,1024), (6,2048), (12,8192). *)
Definition scenario_params : module_params :=
  mk_params [0; 1; 6; 12; 0; 0] 4 [1536; 1024; 2048; 8192; 0; 0] 4
            (mk_donotkill 0 [] 0) (mk_donotkill 0 [] 0).

Definition sample_page_state (free file : Z) (item : zone_stat_item) : Z :=
  match item with
  | NR_FREE_PAGES => free
  | NR_FILE_PAGES => file
  | NR_SHMEM => 0
  | NR_ACTIVE_ANON => 10000
  | NR_ACTIVE_FILE => 2000
  | NR_INACTIVE_ANON => 3000
  | NR_INACTIVE_FILE => 400
  end.

Definition sample_task (id : Z) (name : string) (adj rss : Z) : task_struct :=
  mk_task id name (Some (mk_mm rss)) (Some (mk_signal adj)).

(** Memory is short (1000 free pages, 500 cache pages) and two background
    applications are running. *)
Definition pressure_view (now : Z) : kernel_view :=
  mk_view now (sample_page_state 1000 500)
          [sample_task 100 "app_a" 15 5000; sample_task 101 "app_b" 15 4000].

(** Memory is plentiful. *)
Definition healthy_view (now : Z) : kernel_view :=
  mk_view now (sample_page_state 50000 60000)
          [sample_task 100 "app_a" 15 5000; sample_task 101 "app_b" 15 4000].

(** More shared-memory pages than file pages: [other_file] is negative. *)
Definition shmem_heavy_page_state (item : zone_stat_item) : Z :=
  match item with
  | NR_FREE_PAGES => 1000
  | NR_FILE_PAGES => 100
  | NR_SHMEM => 300
  | NR_ACTIVE_ANON => 10000
  | NR_ACTIVE_FILE => 2000
  | NR_INACTIVE_ANON => 3000
  | NR_INACTIVE_FILE => 400
  end.

Definition shmem_heavy_view (now : Z) : kernel_view :=
  mk_view now shmem_heavy_page_state
          [sample_task 100 "app_a" 15 5000; sample_task 101 "app_b" 15 4000].

(** No threshold configured. *)
Definition empty_table_params : module_params :=
  mk_params [0; 0; 0; 0; 0; 0] 0 [0; 0; 0; 0; 0; 0] 0
            (mk_donotkill 0 [] 0) (mk_donotkill 0 [] 0).

(** Both lists in use, and memory short with protected tasks only. *)
Definition guarded_params : module_params :=
  protecting_params ["system_server"%string] ["surfaceflinger"%string].

Definition guarded_view (now : Z) : kernel_view :=
  mk_view now (sample_page_state 1000 500)
          [sample_task 200 "surfaceflinger" 15 7000;
           sample_task 201 "system_server" 15 9000].

(** Memory is still short one tick after "app_a" was sent SIGKILL: the
    task is still enumerated but has given up its memory context. *)
Definition dying_view (now : Z) : kernel_view :=
  mk_view now (sample_page_state 1000 500)
          [mk_task 100 "app_a" None (Some (mk_signal 15));
           sample_task 101 "app_b" 15 4000].

(** A task that user space exempted from the killer. *)
Definition exempt_task : task_struct := sample_task 1 "init" (-17) 300.

(** ** Properties *)

(** Settles an equivalence between an equation of process types and a
    combination of facts that are among the hypotheses or contradict them. *)
Ltac settle_class :=
  split;
  [ intros E; first [discriminate E | assumption | split; assumption]
  | intros Hx;
    first [reflexivity | contradiction | destruct Hx as [? ?]; contradiction] ].

(** *** Integer conversions *)

Lemma to_int_small (z : Z) : - 2 ^ 31 <= z <= INT_MAX -> to_int z = z.
Proof.
  unfold to_int, INT_MAX. intros Hz.
  rewrite Z.mod_small by lia. lia.
Qed.

Lemma to_int_range (z : Z) : - 2 ^ 31 <= to_int z <= INT_MAX.
Proof.
  unfold to_int, INT_MAX.
  pose proof (Z.mod_pos_bound (z + 2 ^ 31) (2 ^ 32) ltac:(lia)). lia.
Qed.

Lemma to_ulong_small (z : Z) : 0 <= z < 2 ^ BITS_PER_LONG -> to_ulong z = z.
Proof. intros Hz. unfold to_ulong, to_unsigned. now apply Z.mod_small. Qed.

Lemma pow2_32_le_ulong : 32 <= BITS_PER_LONG -> 2 ^ 32 <= 2 ^ BITS_PER_LONG.
Proof. intros Hb. apply Z.pow_le_mono_r; lia. Qed.

(** Storing an [unsigned long] in an [int] keeps the low 32 bits only. *)
Lemma to_int_to_ulong (z : Z) : 32 <= BITS_PER_LONG -> to_int (to_ulong z) = to_int z.
Proof.
  intros Hb. unfold to_int, to_ulong, to_unsigned.
  replace (2 ^ BITS_PER_LONG) with (2 ^ 32 * 2 ^ (BITS_PER_LONG - 32))
    by (rewrite <- Z.pow_add_r by lia; f_equal; lia).
  assert (Hp : 0 < 2 ^ (BITS_PER_LONG - 32)) by (apply Z.pow_pos_nonneg; lia).
  rewrite Z.rem_mul_r by lia.
  rewrite <- Z.add_assoc, (Z.add_comm (2 ^ 32 * _)), Z.add_assoc.
  rewrite (Z.mul_comm (2 ^ 32)), Z.mod_add by lia.
  rewrite <- Zplus_mod_idemp_l, Z.mod_mod by lia.
  rewrite Zplus_mod_idemp_l. reflexivity.
Qed.

(** A non-negative [int] converts to [size_t] unchanged. *)
Lemma to_ulong_of_count (z : Z) :
  32 <= BITS_PER_LONG -> 0 <= z <= INT_MAX -> to_ulong z = z.
Proof.
  intros Hb Hz. apply to_ulong_small.
  pose proof (pow2_32_le_ulong Hb). unfold INT_MAX in Hz. lia.
Qed.

(** *** Arrays indexed by the process type *)

Lemma get_set_same {A} (a : per_type A) (t : lowmem_process_type) (v : A) :
  get (set a t v) t = v.
Proof. destruct t; reflexivity. Qed.

Lemma get_set_other {A} (a : per_type A) (t u : lowmem_process_type) (v : A) :
  t <> u -> get (set a t v) u = get a u.
Proof. destruct t, u; intros Hne; try reflexivity; congruence. Qed.

Lemma get_fill {A} (v : A) (t : lowmem_process_type) : get (fill v) t = v.
Proof. destruct t; reflexivity. Qed.

Lemma proc_type_eq_dec (t u : lowmem_process_type) : {t = u} + {t <> u}.
Proof. decide equality. Qed.

(** *** The substring search *)

Lemma prefix_true_iff (s h : string) :
  prefix s h = true <-> exists post, h = (s ++ post)%string.
Proof.
  revert h. induction s as [|c s IH]; intros h; simpl.
  - split; [intros _; now exists h | intros _; now destruct h].
  - destruct h as [|c' h].
    + split; [discriminate | intros [post Hp]; discriminate].
    + simpl. destruct (Ascii.ascii_dec c c') as [->|Hne].
      * rewrite IH. split; intros [post Hp]; exists post; congruence.
      * split; [discriminate | intros [post Hp]; congruence].
Qed.

Lemma occurs_in_empty (h : string) : occurs_in EmptyString h.
Proof. exists EmptyString, h. reflexivity. Qed.

Lemma occurs_in_refl (s : string) : occurs_in s s.
Proof.
  exists EmptyString, EmptyString. simpl.
  induction s as [|c s IH]; simpl; congruence.
Qed.

Lemma length_append (s t : string) :
  String.length (s ++ t) = (String.length s + String.length t)%nat.
Proof. induction s as [|c s IH]; simpl; congruence. Qed.

Lemma occurs_in_length (n h : string) :
  occurs_in n h -> (String.length n <= String.length h)%nat.
Proof.
  intros (pre & post & ->). rewrite !length_append. lia.
Qed.

(** [c_strstr] finds an occurrence exactly when there is one. *)
Lemma c_strstr_contract (h n : string) : c_strstr h n <> None <-> occurs_in n h.
Proof.
  split.
  - induction h as [|c h IH]; cbn [c_strstr].
    + destruct (prefix n EmptyString) eqn:Hp; [|intros H; now elim H].
      intros _. apply prefix_true_iff in Hp as [post Hp].
      exists EmptyString, post. exact Hp.
    + destruct (prefix n (String c h)) eqn:Hp.
      * intros _. apply prefix_true_iff in Hp as [post Hp].
        exists EmptyString, post. exact Hp.
      * destruct (c_strstr h n) eqn:Hr; cbn [option_map]; [|intros H; now elim H].
        intros _. destruct IH as (pre & post & ->); [congruence|].
        exists (String c pre), post. reflexivity.
  - intros (pre & post & ->).
    induction pre as [|c pre IH].
    + assert (Hp : prefix n (EmptyString ++ n ++ post) = true)
        by (apply prefix_true_iff; now exists post).
      cbn [append] in *.
      destruct (n ++ post)%string; cbn [c_strstr]; rewrite Hp; congruence.
    + cbn [append c_strstr].
      destruct (prefix n (String c (pre ++ n ++ post))); [congruence|].
      destruct (c_strstr (pre ++ n ++ post) n); cbn [option_map]; congruence.
Qed.

(** *** The do-not-kill classifier *)

Lemma donotkill_loop_true_iff (n : nat) (i : Z) (proc_name : string) (d : donotkill) :
  donotkill_loop n i proc_name d = true <->
  exists j, i <= j < i + Z.of_nat n /\ strstr (names_at d j) proc_name <> None.
Proof.
  revert i. induction n as [|n IH]; intros i.
  - simpl. split; [discriminate | intros (j & Hj & _); lia].
  - cbn [donotkill_loop].
    destruct (strstr (names_at d i) proc_name) eqn:Hs.
    + split; [intros _ | reflexivity].
      exists i. split; [lia | congruence].
    + rewrite IH. split; intros (j & Hj & Hm).
      * exists j. split; [lia | exact Hm].
      * exists j. split; [|exact Hm].
        destruct (Z.eq_dec j i) as [->|]; [congruence | lia].
Qed.

(** What [is_in_donotkill_list] computes, read off the code: the list is
    switched on and one of the first [names_count] entries makes [strstr]
    succeed with the entry as haystack and the process name as needle. *)
Lemma is_in_donotkill_list_true_iff (proc_name : string) (d : donotkill) :
  is_in_donotkill_list proc_name d = true <->
  enabled d <> 0 /\
  exists j, 0 <= j < names_count d /\ strstr (names_at d j) proc_name <> None.
Proof.
  unfold is_in_donotkill_list.
  destruct (Z.eqb_spec (enabled d) 0) as [He|He]; simpl.
  - split; [discriminate | intros [Hc _]; contradiction].
  - destruct (Z.ltb_spec 0 (names_count d)) as [Hc|Hc].
    + rewrite donotkill_loop_true_iff, Z2Nat.id by lia. simpl.
      split; [intros H; split; [exact He | exact H] | intros [_ H]; exact H].
    + split; [discriminate | intros (_ & j & Hj & _); lia].
Qed.

Lemma names_at_In (d : donotkill) (j : Z) :
  0 <= j < Z.of_nat (List.length (names d)) -> In (names_at d j) (names d).
Proof. intros Hj. unfold names_at. apply nth_In. lia. Qed.

Lemma In_names_at (d : donotkill) (tok : string) :
  In tok (names d) ->
  exists j, 0 <= j < Z.of_nat (List.length (names d)) /\ names_at d j = tok.
Proof.
  intros Hin. destruct (In_nth _ _ EmptyString Hin) as (k & Hk & Hnth).
  exists (Z.of_nat k). split; [lia|].
  unfold names_at. now rewrite Nat2Z.id.
Qed.

Lemma is_in_donotkill_list_protects (proc_name : string) (d : donotkill) :
  strstr_contract -> donotkill_wf d ->
  (is_in_donotkill_list proc_name d = true <-> protects d proc_name).
Proof.
  intros strstr_ok [Hcount _]. rewrite is_in_donotkill_list_true_iff. unfold protects.
  split; intros [He Hex]; (split; [exact He|]).
  - destruct Hex as (j & Hj & Hs). exists (names_at d j). split.
    + apply names_at_In. lia.
    + now apply strstr_ok.
  - destruct Hex as (tok & Hin & Hocc).
    destruct (In_names_at _ _ Hin) as (j & Hj & <-).
    exists j. split; [lia | now apply strstr_ok].
Qed.

(** *** The threshold walk *)

Lemma array_size_min (P : module_params) :
  array_size P =
  Z.min (Z.min ARRAY_SIZE_lowmem_adj (lowmem_adj_size P)) (lowmem_minfree_size P).
Proof.
  unfold array_size.
  destruct (Z.ltb_spec (lowmem_adj_size P) ARRAY_SIZE_lowmem_adj);
    match goal with |- context [?a <? ?b] => destruct (Z.ltb_spec a b) end; lia.
Qed.

(** The walk stops at the first entry that passes the test. *)
Lemma minfree_loop_hit (n : nat) (i : Z) (P : module_params) (f c j : Z) :
  i <= j < i + Z.of_nat n ->
  below_minfree P f c j = true ->
  (forall j', i <= j' < j -> below_minfree P f c j' = false) ->
  fst (minfree_loop n i P f c) = adj_at P j.
Proof.
  revert i. induction n as [|n IH]; intros i Hj Hhit Hbefore; [lia|].
  cbn [minfree_loop].
  destruct (Z.eq_dec j i) as [->|Hne].
  - now rewrite Hhit.
  - rewrite (Hbefore i) by lia. cbn [fst].
    apply IH; [lia | exact Hhit | intros j' Hj'; apply Hbefore; lia].
Qed.

(** With no such entry [min_adj] keeps its initial value. *)
Lemma minfree_loop_miss (n : nat) (i : Z) (P : module_params) (f c : Z) :
  (forall j, i <= j < i + Z.of_nat n -> below_minfree P f c j = false) ->
  fst (minfree_loop n i P f c) = OOM_ADJUST_MAX + 1.
Proof.
  revert i. induction n as [|n IH]; intros i Hmiss; [reflexivity|].
  cbn [minfree_loop]. rewrite (Hmiss i) by lia. cbn [fst].
  apply IH. intros j Hj. apply Hmiss. lia.
Qed.

(** If [min_adj] was changed, an entry within the bound passed the test. *)
Lemma minfree_loop_changed (n : nat) (i : Z) (P : module_params) (f c : Z) :
  fst (minfree_loop n i P f c) <> OOM_ADJUST_MAX + 1 ->
  exists j, i <= j < i + Z.of_nat n /\ below_minfree P f c j = true.
Proof.
  revert i. induction n as [|n IH]; intros i Hne; [now elim Hne|].
  cbn [minfree_loop] in Hne.
  destruct (below_minfree P f c i) eqn:Hb.
  - exists i. split; [lia | exact Hb].
  - cbn [fst] in Hne. destruct (IH _ Hne) as (j & Hj & Hhit).
    exists j. split; [lia | exact Hhit].
Qed.

(** Only indices from the counter up to the bound are read. *)
Lemma minfree_loop_reads (n : nat) (i : Z) (P : module_params) (f c x : Z) :
  In x (snd (minfree_loop n i P f c)) -> i <= x < i + Z.of_nat n.
Proof.
  revert i. induction n as [|n IH]; intros i Hin; [contradiction|].
  cbn [minfree_loop] in Hin.
  destruct (below_minfree P f c i); cbn [snd] in Hin.
  - destruct Hin as [<-|[]]. lia.
  - destruct Hin as [<-|Hin]; [lia|]. apply IH in Hin. lia.
Qed.

(** The walk depends on the entries below the bound only. *)
Lemma minfree_loop_ext (n : nat) (i : Z) (P Q : module_params) (f c : Z) :
  (forall j, i <= j < i + Z.of_nat n ->
     adj_at P j = adj_at Q j /\ minfree_at P j = minfree_at Q j) ->
  minfree_loop n i P f c = minfree_loop n i Q f c.
Proof.
  revert i. induction n as [|n IH]; intros i Hagree; [reflexivity|].
  cbn [minfree_loop]. unfold below_minfree.
  destruct (Hagree i ltac:(lia)) as [-> ->].
  rewrite (IH (i + 1)); [reflexivity|].
  intros j Hj. apply Hagree. lia.
Qed.

(** For page counts that are non-negative as [int], the test of an entry
    is the plain comparison of the numbers. *)
Lemma below_minfree_counts (P : module_params) (f c i : Z) :
  32 <= BITS_PER_LONG -> 0 <= f <= INT_MAX -> 0 <= c <= INT_MAX ->
  below_minfree P f c i = true <-> f < minfree_at P i /\ c < minfree_at P i.
Proof.
  intros Hb Hf Hc. unfold below_minfree.
  rewrite !to_ulong_of_count by assumption.
  rewrite andb_true_iff, !Z.ltb_lt. reflexivity.
Qed.

(** *** The task loop *)

Lemma scan_task_not_candidate (P : module_params) (min_adj : Z)
    (st : selection) (p : task_struct) :
  candidate_of P min_adj p = None -> scan_task P min_adj st p = st.
Proof.
  unfold candidate_of, scan_task.
  destruct (mm p) as [m|], (signal p) as [sig|]; try reflexivity.
  destruct (oom_adj sig <? min_adj); [reflexivity|].
  destruct (tasksize_of m <=? 0); [reflexivity | discriminate].
Qed.

(** A candidate changes the cells of its own process type only, and only
    if it beats what they hold. *)
Lemma scan_task_candidate (P : module_params) (min_adj : Z)
    (st : selection) (p : task_struct) (t : lowmem_process_type) (a s : Z) :
  candidate_of P min_adj p = Some (t, a, s) ->
  slot (scan_task P min_adj st p) t =
    match get (selected st) t with
    | Some _ =>
        if (a <? get (selected_oom_score_adj st) t)
           || ((a =? get (selected_oom_score_adj st) t)
               && (s <=? get (selected_tasksize st) t))
        then slot st t
        else (Some p, s, a)
    | None => (Some p, s, a)
    end /\
  forall u, u <> t -> slot (scan_task P min_adj st p) u = slot st u.
Proof.
  unfold candidate_of, scan_task.
  destruct (mm p) as [m|], (signal p) as [sig|]; try discriminate.
  destruct (oom_adj sig <? min_adj); [discriminate|].
  destruct (tasksize_of m <=? 0); [discriminate|].
  cbn [orb]. intros [= <- <- <-].
  set (t := classify P (comm p)).
  destruct (get (selected st) t) as [q|] eqn:Hsel.
  - destruct ((oom_adj sig <? get (selected_oom_score_adj st) t)
              || ((oom_adj sig =? get (selected_oom_score_adj st) t)
                  && (tasksize_of m <=? get (selected_tasksize st) t))).
    + split; reflexivity.
    + unfold slot; cbn [selected selected_tasksize selected_oom_score_adj].
      split; [now rewrite !get_set_same|].
      intros u Hu. now rewrite !get_set_other by congruence.
  - unfold slot; cbn [selected selected_tasksize selected_oom_score_adj].
    split; [now rewrite !get_set_same|].
    intros u Hu. now rewrite !get_set_other by congruence.
Qed.

(** A task that is not a candidate of type [t] leaves the cells of [t]
    alone. *)
Lemma scan_task_other (P : module_params) (min_adj : Z)
    (st : selection) (p : task_struct) (t : lowmem_process_type) :
  not_candidate_for P min_adj t p ->
  slot (scan_task P min_adj st p) t = slot st t.
Proof.
  intros Hnot. destruct (candidate_of P min_adj p) as [[[u a] s]|] eqn:Hc.
  - destruct (scan_task_candidate _ _ st _ _ _ _ Hc) as [_ Hother].
    apply Hother. intros ->. exact (Hnot a s Hc).
  - now rewrite scan_task_not_candidate.
Qed.

Lemma scan_tasks_other (P : module_params) (min_adj : Z)
    (l : list task_struct) (st : selection) (t : lowmem_process_type) :
  Forall (not_candidate_for P min_adj t) l ->
  slot (scan_tasks P min_adj st l) t = slot st t.
Proof.
  revert st. induction l as [|p l IH]; intros st Hall; [reflexivity|].
  inversion Hall as [|? ? Hp Hl]; subst.
  cbn [scan_tasks fold_left]. fold (scan_tasks P min_adj (scan_task P min_adj st p) l).
  rewrite IH by assumption. now apply scan_task_other.
Qed.

Lemma scan_tasks_app (P : module_params) (min_adj : Z)
    (l1 l2 : list task_struct) (st : selection) :
  scan_tasks P min_adj st (l1 ++ l2) =
  scan_tasks P min_adj (scan_tasks P min_adj st l1) l2.
Proof. unfold scan_tasks. apply fold_left_app. Qed.

Lemma scan_tasks_cons (P : module_params) (min_adj : Z)
    (p : task_struct) (l : list task_struct) (st : selection) :
  scan_tasks P min_adj st (p :: l) =
  scan_tasks P min_adj (scan_task P min_adj st p) l.
Proof. reflexivity. Qed.

Lemma slot_initial (min_adj : Z) (t : lowmem_process_type) :
  slot (initial_selection min_adj) t = (None, 0, min_adj).
Proof. destruct t; reflexivity. Qed.

(** Once a cell holds a task it holds one for the rest of the loop. *)
Lemma scan_task_keeps_some (P : module_params) (min_adj : Z)
    (st : selection) (p : task_struct) (t : lowmem_process_type) :
  get (selected st) t <> None ->
  get (selected (scan_task P min_adj st p)) t <> None.
Proof.
  intros Hsome.
  destruct (candidate_of P min_adj p) as [[[u a] s]|] eqn:Hc.
  - destruct (scan_task_candidate _ _ st _ _ _ _ Hc) as [Hsame Hother].
    destruct (proc_type_eq_dec u t) as [->|Hne].
    + unfold slot in Hsame.
      destruct (get (selected st) t) as [q|] eqn:Hq; [|now elim Hsome].
      destruct ((a <? get (selected_oom_score_adj st) t)
                || ((a =? get (selected_oom_score_adj st) t)
                    && (s <=? get (selected_tasksize st) t)));
        injection Hsame as -> _ _; congruence.
    + specialize (Hother t ltac:(congruence)). unfold slot in Hother.
      injection Hother as -> _ _. exact Hsome.
  - now rewrite scan_task_not_candidate.
Qed.

Lemma scan_tasks_keeps_some (P : module_params) (min_adj : Z)
    (l : list task_struct) (st : selection) (t : lowmem_process_type) :
  get (selected st) t <> None ->
  get (selected (scan_tasks P min_adj st l)) t <> None.
Proof.
  revert st. induction l as [|p l IH]; intros st Hsome; [exact Hsome|].
  rewrite scan_tasks_cons. apply IH. now apply scan_task_keeps_some.
Qed.

(** A candidate in the list fills the cell of its type. *)
Lemma scan_tasks_finds (P : module_params) (min_adj : Z)
    (l : list task_struct) (st : selection) (p : task_struct)
    (t : lowmem_process_type) (a s : Z) :
  In p l -> candidate_of P min_adj p = Some (t, a, s) ->
  get (selected (scan_tasks P min_adj st l)) t <> None.
Proof.
  revert st. induction l as [|q l IH]; intros st Hin Hc; [contradiction|].
  rewrite scan_tasks_cons. destruct Hin as [->|Hin].
  - apply scan_tasks_keeps_some.
    destruct (scan_task_candidate _ _ st _ _ _ _ Hc) as [Hsame _].
    unfold slot in Hsame.
    destruct (get (selected st) t) as [q|] eqn:Hq.
    + destruct ((a <? get (selected_oom_score_adj st) t)
                || ((a =? get (selected_oom_score_adj st) t)
                    && (s <=? get (selected_tasksize st) t)));
        injection Hsame as -> _ _; congruence.
    + injection Hsame as -> _ _. congruence.
  - now apply IH.
Qed.

(** A cell holds either what it held before the loop or a candidate of its
    type taken from the list. *)
Lemma scan_tasks_selected (P : module_params) (min_adj : Z)
    (l : list task_struct) (st : selection) (p : task_struct)
    (t : lowmem_process_type) :
  get (selected (scan_tasks P min_adj st l)) t = Some p ->
  get (selected st) t = Some p \/
  (In p l /\ exists a s, candidate_of P min_adj p = Some (t, a, s)).
Proof.
  revert st. induction l as [|q l IH]; intros st Hsel; [now left|].
  rewrite scan_tasks_cons in Hsel. apply IH in Hsel as [Hsel|(Hin & Hex)].
  - destruct (candidate_of P min_adj q) as [[[u a] s]|] eqn:Hc.
    + destruct (scan_task_candidate _ _ st _ _ _ _ Hc) as [Hsame Hother].
      destruct (proc_type_eq_dec u t) as [->|Hne].
      * unfold slot in Hsame. rewrite Hsel in Hsame.
        destruct (get (selected st) t) as [r|] eqn:Hr.
        -- destruct ((a <? get (selected_oom_score_adj st) t)
                     || ((a =? get (selected_oom_score_adj st) t)
                         && (s <=? get (selected_tasksize st) t)));
             injection Hsame as Hp _ _.
           ++ left. congruence.
           ++ right. subst q. split; [now left | eauto].
        -- injection Hsame as Hp _ _. right. subst q.
           split; [now left | eauto].
      * specialize (Hother t ltac:(congruence)). unfold slot in Hother.
        injection Hother as Hp _ _. left. congruence.
    + rewrite scan_task_not_candidate in Hsel by assumption. now left.
  - right. split; [now right | exact Hex].
Qed.

(** Two candidates of one process type, the rest of the list not competing
    for that type: the cells of the type after the loop. *)
Lemma scan_two_candidates (P : module_params) (min_adj : Z)
    (p q : task_struct) (t : lowmem_process_type) (ap sp aq sq : Z)
    (before between after : list task_struct) :
  candidate_of P min_adj p = Some (t, ap, sp) ->
  candidate_of P min_adj q = Some (t, aq, sq) ->
  Forall (not_candidate_for P min_adj t) (before ++ between ++ after) ->
  slot (scan_tasks P min_adj (initial_selection min_adj)
          (before ++ p :: between ++ q :: after)) t =
  if (aq <? ap) || ((aq =? ap) && (sq <=? sp))
  then (Some p, sp, ap) else (Some q, sq, aq).
Proof.
  intros Hp Hq Hrest.
  apply Forall_app in Hrest as [Hbefore Hrest].
  apply Forall_app in Hrest as [Hbetween Hafter].
  rewrite scan_tasks_app, scan_tasks_cons, scan_tasks_app, scan_tasks_cons.
  rewrite (scan_tasks_other _ _ after) by assumption.
  set (s0 := scan_tasks P min_adj (initial_selection min_adj) before).
  assert (H0 : slot s0 t = (None, 0, min_adj)).
  { unfold s0. rewrite scan_tasks_other by assumption. apply slot_initial. }
  set (s1 := scan_task P min_adj s0 p).
  assert (H1 : slot s1 t = (Some p, sp, ap)).
  { destruct (scan_task_candidate _ _ s0 _ _ _ _ Hp) as [Hs _].
    unfold slot in H0. injection H0 as Hsel _ _. now rewrite Hsel in Hs. }
  set (s2 := scan_tasks P min_adj s1 between).
  assert (H2 : slot s2 t = (Some p, sp, ap)).
  { unfold s2. now rewrite scan_tasks_other by assumption. }
  destruct (scan_task_candidate _ _ s2 _ _ _ _ Hq) as [Hs _].
  unfold slot in H2. injection H2 as Hsel Hsize Hadj.
  rewrite Hsel, Hsize, Hadj in Hs. rewrite Hs.
  destruct ((aq <? ap) || ((aq =? ap) && (sq <=? sp))); [|reflexivity].
  unfold slot. now rewrite Hsel, Hsize, Hadj.
Qed.

(** *** The kill loop *)

Lemma kill_loop_managed (st : selection) :
  kill_loop managed_process_types st =
  match get (selected st) KILLABLE_PROCESS with
  | Some p => Some (p, get (selected_tasksize st) KILLABLE_PROCESS)
  | None =>
      match get (selected st) DO_NOT_KILL_PROCESS with
      | Some p => Some (p, get (selected_tasksize st) DO_NOT_KILL_PROCESS)
      | None =>
          match get (selected st) DO_NOT_KILL_SYSTEM_PROCESS with
          | Some p => Some (p, get (selected_tasksize st) DO_NOT_KILL_SYSTEM_PROCESS)
          | None => None
          end
      end
  end.
Proof. reflexivity. Qed.

(** The loop visits the process types by increasing enumerator, below
    [MANAGED_PROCESS_TYPES]. *)
Lemma managed_process_types_enumerated :
  map proc_type_index managed_process_types = [0; 1; 2] /\
  forall t, 0 <= proc_type_index t < MANAGED_PROCESS_TYPES /\ In t managed_process_types.
Proof.
  split; [reflexivity|]. intros t.
  destruct t; unfold MANAGED_PROCESS_TYPES; cbn; (split; [lia | auto]).
Qed.

(** When the pass reaches the task loop, the task it kills is the one the
    kill loop takes from the final selection. *)
Lemma scan_pass_killed (P : module_params) (g : module_state)
    (sc : shrink_control) (k : kernel_view) :
  0 < nr_to_scan sc ->
  resolve_min_adj P (other_free_of k) (other_file_of k) <> OOM_ADJUST_MAX + 1 ->
  killed (scan_pass P g sc k) = select_victim (final_selection P k).
Proof.
  intros Hn Hadj. unfold scan_pass, select_victim, final_selection.
  destruct (Z.leb_spec (nr_to_scan sc) 0); [lia|].
  destruct (Z.eqb_spec (resolve_min_adj P (other_free_of k) (other_file_of k))
                       (OOM_ADJUST_MAX + 1)); [contradiction|].
  cbn [orb].
  destruct (kill_loop managed_process_types _) as [[p size]|]; reflexivity.
Qed.

(** *** The cooldown variables *)

Lemma task_notify_func_clears (task : Z) (g : module_state) :
  lowmem_deathpending (task_notify_func task g) = None \/
  task_notify_func task g = g.
Proof.
  unfold task_notify_func.
  destruct (lowmem_deathpending g) as [pending|]; [|now right].
  destruct (task =? pending); [now left | now right].
Qed.

Lemma scan_pass_deathpending (P : module_params) (g : module_state)
    (sc : shrink_control) (k : kernel_view) :
  lowmem_deathpending (state_after (scan_pass P g sc k)) = lowmem_deathpending g.
Proof.
  unfold scan_pass.
  destruct ((nr_to_scan sc <=? 0) || _); [reflexivity|].
  destruct (kill_loop _ _) as [[p size]|]; reflexivity.
Qed.

Lemma lowmem_shrink_deathpending (P : module_params) (g : module_state)
    (sc : shrink_control) (k : kernel_view) :
  lowmem_deathpending (state_after (lowmem_shrink P g sc k)) = lowmem_deathpending g.
Proof.
  unfold lowmem_shrink.
  destruct (death_outstanding g k); [reflexivity | apply scan_pass_deathpending].
Qed.

(** A call that kills sets the timeout one second ahead and leaves the
    pointer as it was. *)
Lemma kill_sets_timeout_only (P : module_params) (g : module_state)
    (sc : shrink_control) (k : kernel_view) (p : task_struct) :
  killed (lowmem_shrink P g sc k) = Some p ->
  state_after (lowmem_shrink P g sc k)
  = mk_state (lowmem_deathpending g) (to_ulong (jiffies k + HZ)).
Proof.
  unfold lowmem_shrink, scan_pass.
  destruct (death_outstanding g k); [discriminate|].
  destruct ((nr_to_scan sc <=? 0) || _); [discriminate|].
  destruct (kill_loop _ _) as [[q size]|]; [reflexivity | discriminate].
Qed.

Lemma reachable_deathpending_null (g : module_state) :
  reachable g -> lowmem_deathpending g = None.
Proof.
  induction 1 as [|g P sc k _ IH|g task _ IH].
  - reflexivity.
  - now rewrite lowmem_shrink_deathpending.
  - destruct (task_notify_func_clears task g) as [Hnull|Hsame];
      [exact Hnull | now rewrite Hsame].
Qed.

Lemma null_never_outstanding (g : module_state) (k : kernel_view) :
  lowmem_deathpending g = None -> death_outstanding g k = false.
Proof. unfold death_outstanding. now intros ->. Qed.

(** A pass that stops before the task loop reports [rem] and changes
    nothing. *)
Lemma scan_pass_report (P : module_params) (g : module_state)
    (sc : shrink_control) (k : kernel_view) :
  nr_to_scan sc <= 0 \/
  resolve_min_adj P (other_free_of k) (other_file_of k) = OOM_ADJUST_MAX + 1 ->
  scan_pass P g sc k = mk_result (reclaimable k) g None.
Proof.
  intros Hstop. unfold scan_pass.
  destruct (Z.leb_spec (nr_to_scan sc) 0); [reflexivity|].
  destruct (Z.eqb_spec (resolve_min_adj P (other_free_of k) (other_file_of k))
                       (OOM_ADJUST_MAX + 1)); [reflexivity | lia].
Qed.

Lemma reclaimable_lru (k : kernel_view) :
  32 <= BITS_PER_LONG -> reclaimable k = to_int (lru_pages k).
Proof. intros Hb. unfold reclaimable, lru_pages. now apply to_int_to_ulong. Qed.

(** ** Main results *)

(** C1 (as the code has it): with [strstr] called as
    [strstr(names[i], proc_name)], a process is put in a protected class
    exactly when its name occurs inside a configured entry of a list that is
    switched on, the user list being asked first: DO_NOT_KILL_PROCESS when
    the user list protects the name, DO_NOT_KILL_SYSTEM_PROCESS when the
    user list does not and the system list does, KILLABLE_PROCESS when
    neither list is switched on or no entry contains the name. *)
Theorem classify_name_inside_entry (P : module_params) (proc_name : string) :
  strstr_contract ->
  donotkill_wf (donotkill_proc P) -> donotkill_wf (donotkill_sysproc P) ->
  (classify P proc_name = DO_NOT_KILL_PROCESS <->
     protects (donotkill_proc P) proc_name) /\
  (classify P proc_name = DO_NOT_KILL_SYSTEM_PROCESS <->
     ~ protects (donotkill_proc P) proc_name /\
     protects (donotkill_sysproc P) proc_name) /\
  (classify P proc_name = KILLABLE_PROCESS <->
     ~ protects (donotkill_proc P) proc_name /\
     ~ protects (donotkill_sysproc P) proc_name).
Proof.
  intros Hstr Hu Hs.
  pose proof (is_in_donotkill_list_protects proc_name _ Hstr Hu) as Hup.
  pose proof (is_in_donotkill_list_protects proc_name _ Hstr Hs) as Hsp.
  unfold classify, is_in_donotkill_proc_list, is_in_donotkill_sysproc_list.
  destruct (is_in_donotkill_list proc_name (donotkill_proc P)).
  - assert (protects (donotkill_proc P) proc_name) by now apply Hup.
    split; [|split]; settle_class.
  - assert (~ protects (donotkill_proc P) proc_name)
      by (intros Hp; apply Hup in Hp; discriminate).
    destruct (is_in_donotkill_list proc_name (donotkill_sysproc P)).
    + assert (protects (donotkill_sysproc P) proc_name) by now apply Hsp.
      split; [|split]; settle_class.
    + assert (~ protects (donotkill_sysproc P) proc_name)
        by (intros Hp; apply Hsp in Hp; discriminate).
      split; [|split]; settle_class.
Qed.

(** C10: when a do-not-kill list is switched on and holds at least one
    name, a process whose name is the empty string is never classified
    KILLABLE_PROCESS, because the empty needle is found in any entry: it is
    DO_NOT_KILL_PROCESS if that list is the user list, and otherwise
    protected by one of the two lists. *)
Theorem empty_name_protected (P : module_params) :
  strstr_contract ->
  (enabled (donotkill_proc P) <> 0 /\ 0 < names_count (donotkill_proc P) ->
     classify P EmptyString = DO_NOT_KILL_PROCESS) /\
  (enabled (donotkill_sysproc P) <> 0 /\ 0 < names_count (donotkill_sysproc P) ->
     classify P EmptyString <> KILLABLE_PROCESS) /\
  (forall d, enabled d <> 0 /\ 0 < names_count d ->
     is_in_donotkill_list EmptyString d = true).
Proof.
  intros Hstr.
  assert (Hlist : forall d, enabled d <> 0 /\ 0 < names_count d ->
                    is_in_donotkill_list EmptyString d = true).
  { intros d [He Hc]. apply is_in_donotkill_list_true_iff. split; [exact He|].
    exists 0. split; [lia|]. apply Hstr, occurs_in_empty. }
  unfold classify, is_in_donotkill_proc_list, is_in_donotkill_sysproc_list.
  repeat split.
  - intros Hon. now rewrite (Hlist _ Hon).
  - intros Hon. rewrite (Hlist _ Hon).
    destruct (is_in_donotkill_list EmptyString (donotkill_proc P)); discriminate.
  - exact Hlist.
Qed.

(** C4: for free and cache page counts (non-negative [int] values) the
    threshold walk returns the [lowmem_adj] of the lowest-index entry, among
    the [array_size] entries in use, whose [lowmem_minfree] is strictly above
    both counts, and OOM_ADJUST_MAX + 1, the value that stands for no
    threshold, when no entry in use is above both.  The table need not even
    be sorted. *)
Theorem resolve_min_adj_first_match (P : module_params) (other_free other_file : Z) :
  32 <= BITS_PER_LONG ->
  0 <= other_free <= INT_MAX -> 0 <= other_file <= INT_MAX ->
  (forall i, 0 <= i < array_size P ->
     other_free < minfree_at P i /\ other_file < minfree_at P i ->
     (forall j, 0 <= j < i ->
        ~ (other_free < minfree_at P j /\ other_file < minfree_at P j)) ->
     resolve_min_adj P other_free other_file = adj_at P i) /\
  ((forall i, 0 <= i < array_size P ->
      ~ (other_free < minfree_at P i /\ other_file < minfree_at P i)) ->
   resolve_min_adj P other_free other_file = OOM_ADJUST_MAX + 1).
Proof.
  intros Hb Hf Hc.
  assert (Hfalse : forall j,
            ~ (other_free < minfree_at P j /\ other_file < minfree_at P j) ->
            below_minfree P other_free other_file j = false).
  { intros j Hno. destruct (below_minfree P other_free other_file j) eqn:Hbm;
      [|reflexivity].
    apply (below_minfree_counts P _ _ j Hb Hf Hc) in Hbm. contradiction. }
  unfold resolve_min_adj, threshold_walk. split.
  - intros i Hi Hhit Hfirst. apply minfree_loop_hit.
    + lia.
    + now apply below_minfree_counts.
    + intros j Hj. apply Hfalse, Hfirst. lia.
  - intros Hmiss. apply minfree_loop_miss. intros j Hj. apply Hfalse, Hmiss.
    lia.
Qed.

(** C8: the threshold walk reads entry [i] of [lowmem_minfree] and of
    [lowmem_adj] only for [i] below both configured lengths and below the
    capacity of the arrays: every index it evaluates has both components,
    and neither the lengths beyond the shorter one nor the entries from the
    shorter length on have any influence on the result. *)
Theorem threshold_walk_within_lengths (P : module_params) (other_free other_file : Z) :
  array_size P =
    Z.min (Z.min ARRAY_SIZE_lowmem_adj (lowmem_adj_size P)) (lowmem_minfree_size P) /\
  (forall i, In i (evaluated_entries P other_free other_file) ->
     0 <= i /\ i < lowmem_adj_size P /\ i < lowmem_minfree_size P /\
     i < ARRAY_SIZE_lowmem_adj) /\
  (forall Q,
     array_size Q = array_size P ->
     (forall i, 0 <= i < array_size P ->
        adj_at P i = adj_at Q i /\ minfree_at P i = minfree_at Q i) ->
     threshold_walk Q other_free other_file = threshold_walk P other_free other_file).
Proof.
  pose proof (array_size_min P) as Hmin.
  split; [exact Hmin|]. split.
  - intros i Hin. unfold evaluated_entries, threshold_walk in Hin.
    apply minfree_loop_reads in Hin.
    lia.
  - intros Q Hsize Hagree. unfold threshold_walk. rewrite Hsize.
    symmetry. apply minfree_loop_ext. intros j Hj. apply Hagree.
    lia.
Qed.

(** C5: for every selection state the kill loop asks the process types in
    the order KILLABLE_PROCESS, DO_NOT_KILL_PROCESS,
    DO_NOT_KILL_SYSTEM_PROCESS and takes the selected task of the first type
    that has one: the killable one whenever there is one, whatever the
    protected types hold; a user-protected one only when no killable task
    was selected; a system-protected one only when neither was; and none
    only when all three cells are empty.  A pass of [lowmem_shrink] that
    gets to the task loop kills exactly the task so taken from the final
    selection, so that a killable candidate among the tasks makes the
    victim a killable candidate. *)
Theorem select_victim_class_order (st : selection) :
  (forall p, get (selected st) KILLABLE_PROCESS = Some p ->
     select_victim st = Some p) /\
  (forall p, get (selected st) KILLABLE_PROCESS = None ->
     get (selected st) DO_NOT_KILL_PROCESS = Some p ->
     select_victim st = Some p) /\
  (forall p, get (selected st) KILLABLE_PROCESS = None ->
     get (selected st) DO_NOT_KILL_PROCESS = None ->
     get (selected st) DO_NOT_KILL_SYSTEM_PROCESS = Some p ->
     select_victim st = Some p) /\
  (select_victim st = None <-> forall t, get (selected st) t = None) /\
  (forall P g sc k,
     let min_adj := resolve_min_adj P (other_free_of k) (other_file_of k) in
     death_outstanding g k = false ->
     0 < nr_to_scan sc ->
     min_adj <> OOM_ADJUST_MAX + 1 ->
     killed (lowmem_shrink P g sc k) = select_victim (final_selection P k) /\
     (forall p a s, In p (tasks k) ->
        candidate_of P min_adj p = Some (KILLABLE_PROCESS, a, s) ->
        exists v a' s',
          killed (lowmem_shrink P g sc k) = Some v /\ In v (tasks k) /\
          candidate_of P min_adj v = Some (KILLABLE_PROCESS, a', s'))).
Proof.
  split; [|split; [|split; [|split]]];
    [unfold select_victim; rewrite kill_loop_managed .. | ].
  - intros p ->. reflexivity.
  - intros p -> ->. reflexivity.
  - intros p -> -> ->. reflexivity.
  - split.
    + intros Hnone t.
      destruct (get (selected st) KILLABLE_PROCESS) eqn:H0; [discriminate|].
      destruct (get (selected st) DO_NOT_KILL_PROCESS) eqn:H1; [discriminate|].
      destruct (get (selected st) DO_NOT_KILL_SYSTEM_PROCESS) eqn:H2; [discriminate|].
      destruct t; assumption.
    + intros Hall.
      now rewrite (Hall KILLABLE_PROCESS), (Hall DO_NOT_KILL_PROCESS),
        (Hall DO_NOT_KILL_SYSTEM_PROCESS).
  - intros P g sc k min_adj Hidle Hn Hadj.
    assert (Hkilled : killed (lowmem_shrink P g sc k)
                      = select_victim (final_selection P k)).
    { unfold lowmem_shrink. rewrite Hidle. now apply scan_pass_killed. }
    split; [exact Hkilled|].
    intros p a s Hin Hc. rewrite Hkilled. unfold select_victim.
    rewrite kill_loop_managed.
    pose proof (scan_tasks_finds P min_adj (tasks k) (initial_selection min_adj)
                  p _ _ _ Hin Hc) as Hsome.
    fold (final_selection P k) in Hsome.
    destruct (get (selected (final_selection P k)) KILLABLE_PROCESS) as [v|] eqn:Hv;
      [|now elim Hsome].
    apply scan_tasks_selected in Hv as [Hv|(Hvin & a' & s' & Hvc)];
      [discriminate|].
    exists v, a', s'. repeat split; assumption.
Qed.

(** C6: two candidates [p] and [q] of one process type, [p] enumerated
    before [q], with no other task of the list competing for that type.
    The cell of the type ends up holding the one with the strictly greater
    [oom_adj], whichever of the two came first; with equal [oom_adj] the
    one with the strictly greater [tasksize], whichever came first; and with
    both equal the earlier one, [p]. *)
Theorem scan_tie_break (P : module_params) (min_adj : Z)
    (p q : task_struct) (t : lowmem_process_type) (ap sp aq sq : Z)
    (before between after : list task_struct) :
  candidate_of P min_adj p = Some (t, ap, sp) ->
  candidate_of P min_adj q = Some (t, aq, sq) ->
  Forall (not_candidate_for P min_adj t) (before ++ between ++ after) ->
  let best :=
    get (selected (scan_tasks P min_adj (initial_selection min_adj)
                     (before ++ p :: between ++ q :: after))) t in
  (aq < ap -> best = Some p) /\
  (ap < aq -> best = Some q) /\
  (ap = aq -> sq < sp -> best = Some p) /\
  (ap = aq -> sp < sq -> best = Some q) /\
  (ap = aq -> sp = sq -> best = Some p).
Proof.
  intros Hp Hq Hrest best.
  pose proof (scan_two_candidates _ _ _ _ _ _ _ _ _ before between after
                Hp Hq Hrest) as Hslot.
  assert (Hbest : best = if (aq <? ap) || ((aq =? ap) && (sq <=? sp))
                         then Some p else Some q).
  { unfold slot in Hslot. fold best in Hslot.
    destruct ((aq <? ap) || ((aq =? ap) && (sq <=? sp)));
      now injection Hslot as -> _ _. }
  rewrite Hbest.
  destruct (Z.ltb_spec aq ap), (Z.eqb_spec aq ap), (Z.leb_spec sq sp);
    cbn [orb andb]; repeat split; intros; try reflexivity; lia.
Qed.

(** C7: in every state the module can be in, a call with [nr_to_scan] zero
    or less, and a call for which no entry in use passes the threshold
    test, sends no signal, leaves the module state as it was and returns
    [rem]: the sum of the active and inactive, anonymous and file page
    counters as an [int], which is that sum itself whenever the sum is in
    the range of [int]. *)
Theorem report_only_pass (P : module_params) (g : module_state)
    (sc : shrink_control) (k : kernel_view) :
  32 <= BITS_PER_LONG ->
  reachable g ->
  nr_to_scan sc <= 0 \/
  (forall i, 0 <= i < array_size P ->
     below_minfree P (other_free_of k) (other_file_of k) i = false) ->
  lowmem_shrink P g sc k = mk_result (to_int (lru_pages k)) g None /\
  (- 2 ^ 31 <= lru_pages k <= INT_MAX ->
   ret (lowmem_shrink P g sc k) = lru_pages k).
Proof.
  intros Hb Hreach Hstop.
  assert (Heq : lowmem_shrink P g sc k = mk_result (to_int (lru_pages k)) g None).
  { unfold lowmem_shrink.
    rewrite (null_never_outstanding g k (reachable_deathpending_null g Hreach)).
    rewrite <- reclaimable_lru by exact Hb.
    apply scan_pass_report. destruct Hstop as [Hn|Hmiss]; [now left | right].
    unfold resolve_min_adj, threshold_walk. apply minfree_loop_miss.
    intros j Hj. apply Hmiss. lia. }
  split; [exact Heq|].
  intros Hrange. rewrite Heq. cbn [ret]. now apply to_int_small.
Qed.

(** C9: in every state the module can be in, [lowmem_deathpending] is
    NULL.  [task_notify_func] can only store NULL in it and
    [lowmem_shrink] never writes it (the kill loop sets
    [lowmem_deathpending_timeout] only), so the test at the head of
    [lowmem_shrink] is never true and every call runs the rest of the
    function. *)
Theorem deathpending_always_null (g : module_state) :
  reachable g ->
  lowmem_deathpending g = None /\
  (forall task, lowmem_deathpending (task_notify_func task g) = None) /\
  (forall P sc k,
     lowmem_deathpending (state_after (lowmem_shrink P g sc k)) = None /\
     death_outstanding g k = false /\
     lowmem_shrink P g sc k = scan_pass P g sc k).
Proof.
  intros Hreach.
  pose proof (reachable_deathpending_null g Hreach) as Hnull.
  split; [exact Hnull|]. split.
  - intros task. apply reachable_deathpending_null. now constructor.
  - intros P sc k. split; [|split].
    + now rewrite lowmem_shrink_deathpending.
    + now apply null_never_outstanding.
    + unfold lowmem_shrink. now rewrite null_never_outstanding.
Qed.

(** ** Further properties of the driver *)

(** *** What the task loop selects *)

Lemma candidate_of_inv (P : module_params) (min_adj : Z) (p : task_struct)
    (t : lowmem_process_type) (a s : Z) :
  candidate_of P min_adj p = Some (t, a, s) ->
  exists m sig,
    mm p = Some m /\ signal p = Some sig /\
    t = classify P (comm p) /\ a = oom_adj sig /\ s = tasksize_of m /\
    min_adj <= a /\ 0 < s.
Proof.
  unfold candidate_of.
  destruct (mm p) as [m|], (signal p) as [sig|]; try discriminate.
  destruct (Z.ltb_spec (oom_adj sig) min_adj); [discriminate|].
  destruct (Z.leb_spec (tasksize_of m) 0); [discriminate|].
  cbn [orb]. intros [= <- <- <-]. exists m, sig. repeat split; trivial.
Qed.

Lemma ranks_above_no_lower (a s a' s' : Z) :
  ranks_above a s a' s' -> ranks_no_lower a s a' s'.
Proof. unfold ranks_above, ranks_no_lower. lia. Qed.

Lemma ranks_no_lower_antisym (a s a' s' : Z) :
  ranks_no_lower a s a' s' -> ranks_no_lower a' s' a s -> a = a' /\ s = s'.
Proof. unfold ranks_no_lower. lia. Qed.

(** The test of the task loop, read as the order on candidates. *)
Lemma keep_test_spec (a s a0 s0 : Z) :
  (a <? a0) || ((a =? a0) && (s <=? s0)) = true <-> ranks_no_lower a0 s0 a s.
Proof.
  unfold ranks_no_lower.
  rewrite orb_true_iff, andb_true_iff, Z.ltb_lt, Z.eqb_eq, Z.leb_le. reflexivity.
Qed.

(** The cells of a process type after the loop has run over [l] from the
    initial selection: untouched if [l] has no candidate of the type;
    otherwise they hold a candidate of the type, with its [tasksize] and
    [oom_adj], that ranks above every candidate of the type before it and
    is not outranked by any after it. *)
Lemma scan_tasks_best (P : module_params) (min_adj : Z)
    (t : lowmem_process_type) (l : list task_struct) :
  (Forall (not_candidate_for P min_adj t) l /\
   slot (scan_tasks P min_adj (initial_selection min_adj) l) t = (None, 0, min_adj)) \/
  (exists p a s l1 l2,
     l = l1 ++ p :: l2 /\
     candidate_of P min_adj p = Some (t, a, s) /\
     slot (scan_tasks P min_adj (initial_selection min_adj) l) t = (Some p, s, a) /\
     (forall q a' s', In q l1 ->
        candidate_of P min_adj q = Some (t, a', s') -> ranks_above a s a' s') /\
     (forall q a' s', In q l2 ->
        candidate_of P min_adj q = Some (t, a', s') -> ranks_no_lower a s a' s')).
Proof.
  induction l as [|q l IH] using rev_ind.
  - left. split; [constructor | apply slot_initial].
  - rewrite scan_tasks_app, scan_tasks_cons. cbn [scan_tasks fold_left].
    set (st := scan_tasks P min_adj (initial_selection min_adj) l) in *.
    destruct (candidate_of P min_adj q) as [[[u aq] sq]|] eqn:Hq.
    + destruct (scan_task_candidate _ _ st _ _ _ _ Hq) as [Hsame Hother].
      destruct (proc_type_eq_dec u t) as [->|Hne].
      * destruct IH as [[Hnone Hslot]|(p & a & s & l1 & l2 & Hl & Hp & Hslot & Hl1 & Hl2)].
        -- right. exists q, aq, sq, l, []. split; [reflexivity|].
           split; [exact Hq|]. split.
           ++ unfold slot in Hslot. injection Hslot as Hsel _ _.
              now rewrite Hsel in Hsame.
           ++ split; [|intros ? ? ? []].
              intros r a' s' Hin Hr. rewrite Forall_forall in Hnone.
              now elim (Hnone r Hin a' s').
        -- unfold slot in Hslot. injection Hslot as Hsel Hsize Hadj.
           rewrite Hsel, Hsize, Hadj in Hsame.
           destruct ((aq <? a) || ((aq =? a) && (sq <=? s))) eqn:Hkeep.
           ++ right. exists p, a, s, l1, (l2 ++ [q]).
              split; [now rewrite Hl, <- app_assoc|]. split; [exact Hp|]. split.
              ** rewrite Hsame. unfold slot. now rewrite Hsel, Hsize, Hadj.
              ** split; [exact Hl1|]. intros r a' s' Hin Hr.
                 apply in_app_or in Hin as [Hin|[<-|[]]]; [now apply (Hl2 r)|].
                 rewrite Hq in Hr. injection Hr as <- <-.
                 now apply keep_test_spec.
           ++ assert (Hwin : ranks_above aq sq a s).
              { destruct (Z.ltb_spec aq a), (Z.eqb_spec aq a), (Z.leb_spec sq s);
                  cbn [orb andb] in Hkeep; try discriminate;
                  unfold ranks_above; lia. }
              right. exists q, aq, sq, l, []. split; [reflexivity|].
              split; [exact Hq|]. split; [exact Hsame|].
              split; [|intros ? ? ? []].
              intros r a' s' Hin Hr. rewrite Hl in Hin.
              assert (Hle : ranks_no_lower a s a' s').
              { apply in_app_or in Hin as [Hin|[<-|Hin]].
                - apply ranks_above_no_lower. now apply (Hl1 r).
                - rewrite Hp in Hr. injection Hr as <- <-.
                  unfold ranks_no_lower. lia.
                - now apply (Hl2 r). }
              unfold ranks_above, ranks_no_lower in *. lia.
      * assert (Hnot : not_candidate_for P min_adj t q).
        { intros a' s' Hc. rewrite Hq in Hc. congruence. }
        rewrite (Hother t (not_eq_sym Hne)).
        destruct IH as [[Hnone Hslot]|(p & a & s & l1 & l2 & Hl & Hp & Hslot & Hl1 & Hl2)].
        -- left. split; [|exact Hslot].
           apply Forall_app. split; [exact Hnone | now constructor].
        -- right. exists p, a, s, l1, (l2 ++ [q]).
           split; [now rewrite Hl, <- app_assoc|]. split; [exact Hp|].
           split; [exact Hslot|]. split; [exact Hl1|].
           intros r a' s' Hin Hr.
           apply in_app_or in Hin as [Hin|[<-|[]]]; [now apply (Hl2 r)|].
           now elim (Hnot a' s').
    + assert (Hnot : not_candidate_for P min_adj t q).
      { intros a' s' Hc. rewrite Hq in Hc. discriminate. }
      rewrite scan_task_not_candidate by exact Hq.
      destruct IH as [[Hnone Hslot]|(p & a & s & l1 & l2 & Hl & Hp & Hslot & Hl1 & Hl2)].
      * left. split; [|exact Hslot].
        apply Forall_app. split; [exact Hnone | now constructor].
      * right. exists p, a, s, l1, (l2 ++ [q]).
        split; [now rewrite Hl, <- app_assoc|]. split; [exact Hp|].
        split; [exact Hslot|]. split; [exact Hl1|].
        intros r a' s' Hin Hr.
        apply in_app_or in Hin as [Hin|[<-|[]]]; [now apply (Hl2 r)|].
        now elim (Hnot a' s').
Qed.

(** The three cells of a process type after the loop, read together. *)
Lemma scan_tasks_cells (P : module_params) (min_adj : Z)
    (t : lowmem_process_type) (l : list task_struct) :
  let st := scan_tasks P min_adj (initial_selection min_adj) l in
  match get (selected st) t with
  | Some p =>
      In p l /\
      candidate_of P min_adj p
      = Some (t, get (selected_oom_score_adj st) t, get (selected_tasksize st) t) /\
      (forall q a' s', In q l ->
         candidate_of P min_adj q = Some (t, a', s') ->
         ranks_no_lower (get (selected_oom_score_adj st) t)
                        (get (selected_tasksize st) t) a' s')
  | None =>
      Forall (not_candidate_for P min_adj t) l /\
      get (selected_tasksize st) t = 0 /\
      get (selected_oom_score_adj st) t = min_adj
  end.
Proof.
  intros st. subst st.
  destruct (scan_tasks_best P min_adj t l)
    as [[Hnone Hslot]|(p & a & s & l1 & l2 & Hl & Hp & Hslot & Hl1 & Hl2)];
    unfold slot in Hslot; injection Hslot as Hsel Hsize Hadj;
    rewrite Hsel, ?Hsize, ?Hadj.
  - repeat split; trivial.
  - split; [rewrite Hl; apply in_or_app; right; now left|].
    split; [exact Hp|].
    intros q a' s' Hin Hq. rewrite Hl in Hin.
    apply in_app_or in Hin as [Hin|[<-|Hin]].
    + apply ranks_above_no_lower. now apply (Hl1 q).
    + rewrite Hp in Hq. injection Hq as <- <-. unfold ranks_no_lower. lia.
    + now apply (Hl2 q).
Qed.

(** X1: after the task loop has run over any list of tasks, the cell of a
    process type is empty exactly when the list has no candidate of the
    type; otherwise it holds a candidate of the type whose [oom_adj] and
    [tasksize] are in the two companion cells, that ranks above every
    candidate of the type enumerated before it and is outranked by none
    enumerated after it: the first of the highest-ranking candidates. *)
Theorem scan_selects_first_maximum (P : module_params) (min_adj : Z)
    (t : lowmem_process_type) (l : list task_struct) :
  let st := scan_tasks P min_adj (initial_selection min_adj) l in
  match get (selected st) t with
  | None => Forall (not_candidate_for P min_adj t) l
  | Some p =>
      candidate_of P min_adj p
      = Some (t, get (selected_oom_score_adj st) t, get (selected_tasksize st) t) /\
      exists l1 l2,
        l = l1 ++ p :: l2 /\
        (forall q a' s', In q l1 ->
           candidate_of P min_adj q = Some (t, a', s') ->
           ranks_above (get (selected_oom_score_adj st) t)
                       (get (selected_tasksize st) t) a' s') /\
        (forall q a' s', In q l2 ->
           candidate_of P min_adj q = Some (t, a', s') ->
           ranks_no_lower (get (selected_oom_score_adj st) t)
                          (get (selected_tasksize st) t) a' s')
  end.
Proof.
  intros st. subst st.
  destruct (scan_tasks_best P min_adj t l)
    as [[Hnone Hslot]|(p & a & s & l1 & l2 & Hl & Hp & Hslot & Hl1 & Hl2)];
    unfold slot in Hslot; injection Hslot as Hsel Hsize Hadj;
    rewrite Hsel, ?Hsize, ?Hadj.
  - exact Hnone.
  - split; [exact Hp|]. exists l1, l2. repeat split; assumption.
Qed.

(** *** What a call kills *)

(** A call that kills went through the whole function. *)
Lemma lowmem_shrink_kill_inv (P : module_params) (g : module_state)
    (sc : shrink_control) (k : kernel_view) (v : task_struct) :
  killed (lowmem_shrink P g sc k) = Some v ->
  death_outstanding g k = false /\
  0 < nr_to_scan sc /\
  resolve_min_adj P (other_free_of k) (other_file_of k) <> OOM_ADJUST_MAX + 1 /\
  exists t,
    get (selected (final_selection P k)) t = Some v /\
    (forall u, proc_type_index u < proc_type_index t ->
       get (selected (final_selection P k)) u = None) /\
    ret (lowmem_shrink P g sc k)
    = to_int (reclaimable k - get (selected_tasksize (final_selection P k)) t) /\
    state_after (lowmem_shrink P g sc k)
    = mk_state (lowmem_deathpending g) (to_ulong (jiffies k + HZ)).
Proof.
  unfold lowmem_shrink, scan_pass.
  destruct (death_outstanding g k); [discriminate|].
  destruct (Z.leb_spec (nr_to_scan sc) 0); [discriminate|].
  destruct (Z.eqb_spec (resolve_min_adj P (other_free_of k) (other_file_of k))
                       (OOM_ADJUST_MAX + 1)); [discriminate|].
  cbn [orb]. fold (final_selection P k). rewrite kill_loop_managed.
  intros Hk. repeat (split; [trivial; lia|]).
  destruct (get (selected (final_selection P k)) KILLABLE_PROCESS) as [p0|] eqn:H0.
  { injection Hk as <-. exists KILLABLE_PROCESS. repeat split; trivial.
    intros u Hu. destruct u; simpl in Hu; lia. }
  destruct (get (selected (final_selection P k)) DO_NOT_KILL_PROCESS) as [p1|] eqn:H1.
  { injection Hk as <-. exists DO_NOT_KILL_PROCESS. repeat split; trivial.
    intros u Hu. destruct u; simpl in Hu; trivial; lia. }
  destruct (get (selected (final_selection P k)) DO_NOT_KILL_SYSTEM_PROCESS) as [p2|] eqn:H2.
  { injection Hk as <-. exists DO_NOT_KILL_SYSTEM_PROCESS. repeat split; trivial.
    intros u Hu. destruct u; simpl in Hu; trivial; lia. }
  discriminate.
Qed.

(** A call that kills nothing changes nothing and returns 0 or [rem]. *)
Lemma lowmem_shrink_no_kill_inv (P : module_params) (g : module_state)
    (sc : shrink_control) (k : kernel_view) :
  killed (lowmem_shrink P g sc k) = None ->
  state_after (lowmem_shrink P g sc k) = g /\
  (ret (lowmem_shrink P g sc k) = 0 \/ ret (lowmem_shrink P g sc k) = reclaimable k).
Proof.
  unfold lowmem_shrink, scan_pass.
  destruct (death_outstanding g k); [intros _; split; [reflexivity | now left]|].
  destruct ((nr_to_scan sc <=? 0) || _); [intros _; split; [reflexivity | now right]|].
  destruct (kill_loop _ _) as [[p size]|]; [discriminate|].
  intros _; split; [reflexivity | now right].
Qed.

(** The cells of the final selection. *)
Lemma final_selection_cells (P : module_params) (k : kernel_view)
    (t : lowmem_process_type) (p : task_struct) :
  get (selected (final_selection P k)) t = Some p ->
  In p (tasks k) /\
  candidate_of P (resolve_min_adj P (other_free_of k) (other_file_of k)) p
  = Some (t, get (selected_oom_score_adj (final_selection P k)) t,
          get (selected_tasksize (final_selection P k)) t).
Proof.
  intros Hsel. unfold final_selection in *.
  pose proof (scan_tasks_cells P (resolve_min_adj P (other_free_of k) (other_file_of k))
                t (tasks k)) as Hcells.
  cbv zeta in Hcells. rewrite Hsel in Hcells.
  destruct Hcells as (Hin & Hc & _). split; assumption.
Qed.

(** X3: a task that [lowmem_shrink] kills is one of the enumerated tasks,
    has a memory context and a signal structure, an [oom_adj] not below
    the [min_adj] resolved from the thresholds and a positive [tasksize];
    and the call was made with no death outstanding, a positive
    [nr_to_scan] and a threshold entry that matched. *)
Theorem victim_is_candidate (P : module_params) (g : module_state)
    (sc : shrink_control) (k : kernel_view) (v : task_struct) :
  killed (lowmem_shrink P g sc k) = Some v ->
  let min_adj := resolve_min_adj P (other_free_of k) (other_file_of k) in
  death_outstanding g k = false /\
  0 < nr_to_scan sc /\
  min_adj <> OOM_ADJUST_MAX + 1 /\
  In v (tasks k) /\
  exists m sig,
    mm v = Some m /\ signal v = Some sig /\
    min_adj <= oom_adj sig /\ 0 < tasksize_of m.
Proof.
  intros Hk min_adj.
  destruct (lowmem_shrink_kill_inv _ _ _ _ _ Hk) as (Hidle & Hn & Hadj & t & Hsel & _).
  destruct (final_selection_cells _ _ _ _ Hsel) as [Hin Hc].
  destruct (candidate_of_inv _ _ _ _ _ _ Hc)
    as (m & sig & Hm & Hsig & _ & Ha & Hs & Hge & Hpos).
  repeat (split; [assumption|]).
  exists m, sig. subst min_adj.
  split; [exact Hm|]. split; [exact Hsig|]. split; lia.
Qed.

(** X4: [lowmem_shrink] sends SIGKILL exactly when no death is
    outstanding, [nr_to_scan] is positive, the threshold walk changed
    [min_adj], and at least one enumerated task is a candidate. *)
Theorem kill_iff_candidate (P : module_params) (g : module_state)
    (sc : shrink_control) (k : kernel_view) :
  let min_adj := resolve_min_adj P (other_free_of k) (other_file_of k) in
  killed (lowmem_shrink P g sc k) <> None <->
  death_outstanding g k = false /\
  0 < nr_to_scan sc /\
  min_adj <> OOM_ADJUST_MAX + 1 /\
  exists p, In p (tasks k) /\ candidate_of P min_adj p <> None.
Proof.
  intros min_adj. split.
  - destruct (killed (lowmem_shrink P g sc k)) as [v|] eqn:Hk; [|intros H; now elim H].
    intros _.
    destruct (lowmem_shrink_kill_inv _ _ _ _ _ Hk) as (Hidle & Hn & Hadj & t & Hsel & _).
    destruct (final_selection_cells _ _ _ _ Hsel) as [Hin Hc].
    repeat (split; [assumption|]).
    exists v. split; [exact Hin|]. fold min_adj in Hc. congruence.
  - intros (Hidle & Hn & Hadj & p & Hin & Hc).
    unfold lowmem_shrink. rewrite Hidle.
    rewrite scan_pass_killed by assumption.
    destruct (candidate_of P min_adj p) as [[[t a] s]|] eqn:Hp; [|now elim Hc].
    pose proof (scan_tasks_finds P min_adj (tasks k) (initial_selection min_adj)
                  p _ _ _ Hin Hp) as Hsome.
    unfold select_victim. rewrite kill_loop_managed.
    change (final_selection P k)
      with (scan_tasks P min_adj (initial_selection min_adj) (tasks k)).
    set (sel := selected (scan_tasks P min_adj (initial_selection min_adj) (tasks k))) in *.
    destruct (get sel KILLABLE_PROCESS) eqn:H0; [cbn; discriminate|].
    destruct (get sel DO_NOT_KILL_PROCESS) eqn:H1; [cbn; discriminate|].
    destruct (get sel DO_NOT_KILL_SYSTEM_PROCESS) eqn:H2; [cbn; discriminate|].
    destruct t; congruence.
Qed.

(** X5: when [lowmem_shrink] kills a task it returns [rem] less the
    [tasksize] of that task, as an [int], which is the difference itself
    when the four LRU counters add up to a non-negative [int]; the pointer
    is left as it was and the timeout is set [HZ] ticks after [jiffies].
    When it kills nothing, both cooldown variables are left as they were
    and the value returned is 0 or [rem]. *)
Theorem kill_accounting (P : module_params) (g : module_state)
    (sc : shrink_control) (k : kernel_view) :
  (forall v, killed (lowmem_shrink P g sc k) = Some v ->
     exists m,
       mm v = Some m /\
       ret (lowmem_shrink P g sc k) = to_int (reclaimable k - tasksize_of m) /\
       state_after (lowmem_shrink P g sc k)
       = mk_state (lowmem_deathpending g) (to_ulong (jiffies k + HZ)) /\
       (32 <= BITS_PER_LONG -> 0 <= lru_pages k <= INT_MAX ->
        ret (lowmem_shrink P g sc k) = lru_pages k - tasksize_of m)) /\
  (killed (lowmem_shrink P g sc k) = None ->
     state_after (lowmem_shrink P g sc k) = g /\
     (ret (lowmem_shrink P g sc k) = 0 \/
      ret (lowmem_shrink P g sc k) = reclaimable k)).
Proof.
  split; [|apply lowmem_shrink_no_kill_inv].
  intros v Hk.
  destruct (lowmem_shrink_kill_inv _ _ _ _ _ Hk)
    as (_ & _ & _ & t & Hsel & _ & Hret & Hstate).
  destruct (final_selection_cells _ _ _ _ Hsel) as [_ Hc].
  destruct (candidate_of_inv _ _ _ _ _ _ Hc)
    as (m & sig & Hm & _ & _ & _ & Hs & _ & Hpos).
  exists m. rewrite Hs in Hret.
  repeat (split; [assumption|]).
  intros Hb Hlru. rewrite Hret, reclaimable_lru, (to_int_small (lru_pages k)) by lia.
  apply to_int_small.
  pose proof (to_int_range (get_mm_rss m)) as Hr. fold (tasksize_of m) in Hr.
  unfold INT_MAX in *. lia.
Qed.

(** X6: a protected task is killed only as a last resort.  If the task
    killed is classified DO_NOT_KILL_PROCESS, no enumerated task is a
    killable candidate; if it is classified DO_NOT_KILL_SYSTEM_PROCESS, no
    enumerated task is a killable or a user-protected candidate. *)
Theorem protected_victim_last_resort (P : module_params) (g : module_state)
    (sc : shrink_control) (k : kernel_view) (v : task_struct) :
  killed (lowmem_shrink P g sc k) = Some v ->
  let min_adj := resolve_min_adj P (other_free_of k) (other_file_of k) in
  (classify P (comm v) = DO_NOT_KILL_PROCESS ->
     Forall (not_candidate_for P min_adj KILLABLE_PROCESS) (tasks k)) /\
  (classify P (comm v) = DO_NOT_KILL_SYSTEM_PROCESS ->
     Forall (not_candidate_for P min_adj KILLABLE_PROCESS) (tasks k) /\
     Forall (not_candidate_for P min_adj DO_NOT_KILL_PROCESS) (tasks k)).
Proof.
  intros Hk min_adj. subst min_adj.
  destruct (lowmem_shrink_kill_inv _ _ _ _ _ Hk) as (_ & _ & _ & t & Hsel & Hfirst & _).
  destruct (final_selection_cells _ _ _ _ Hsel) as [_ Hc].
  destruct (candidate_of_inv _ _ _ _ _ _ Hc) as (_ & _ & _ & _ & Ht & _).
  assert (Hempty : forall u, proc_type_index u < proc_type_index t ->
            Forall (not_candidate_for P
                      (resolve_min_adj P (other_free_of k) (other_file_of k)) u)
                   (tasks k)).
  { intros u Hu. specialize (Hfirst u Hu).
    pose proof (scan_tasks_cells P
                  (resolve_min_adj P (other_free_of k) (other_file_of k))
                  u (tasks k)) as Hcells.
    unfold final_selection in Hfirst. cbv zeta in Hfirst, Hcells.
    rewrite Hfirst in Hcells. apply Hcells. }
  split; intros Hclass; rewrite Hclass in Ht; subst t.
  - apply Hempty. simpl. lia.
  - split; apply Hempty; simpl; lia.
Qed.

(** *** The order of enumeration *)

(** Enumerating the same tasks in another order leaves the [oom_adj] and
    [tasksize] cells as they are, and a cell of selected tasks empty or
    filled as it is; the tasks selected have the same rank. *)
Lemma scan_tasks_perm_cells (P : module_params) (min_adj : Z)
    (t : lowmem_process_type) (l l' : list task_struct) :
  Permutation l l' ->
  let st := scan_tasks P min_adj (initial_selection min_adj) l in
  let st' := scan_tasks P min_adj (initial_selection min_adj) l' in
  get (selected_tasksize st) t = get (selected_tasksize st') t /\
  get (selected_oom_score_adj st) t = get (selected_oom_score_adj st') t /\
  match get (selected st) t, get (selected st') t with
  | Some p, Some p' => candidate_of P min_adj p = candidate_of P min_adj p'
  | None, None => True
  | _, _ => False
  end.
Proof.
  intros Hperm st st'.
  pose proof (scan_tasks_cells P min_adj t l) as Hc.
  pose proof (scan_tasks_cells P min_adj t l') as Hc'.
  cbv zeta in Hc, Hc'. fold st in Hc. fold st' in Hc'.
  destruct (get (selected st) t) as [p|], (get (selected st') t) as [p'|].
  - destruct Hc as (Hin & Hp & Htop), Hc' as (Hin' & Hp' & Htop').
    pose proof (Htop' p _ _ (Permutation_in _ Hperm Hin) Hp) as H1.
    pose proof (Htop p' _ _ (Permutation_in _ (Permutation_sym Hperm) Hin') Hp') as H2.
    destruct (ranks_no_lower_antisym _ _ _ _ H1 H2) as [Ha Hs].
    repeat split; congruence.
  - destruct Hc as (Hin & Hp & _), Hc' as (Hnone & _).
    rewrite Forall_forall in Hnone.
    now elim (Hnone p (Permutation_in _ Hperm Hin) _ _ Hp).
  - destruct Hc as (Hnone & _), Hc' as (Hin' & Hp' & _).
    rewrite Forall_forall in Hnone.
    now elim (Hnone p' (Permutation_in _ (Permutation_sym Hperm) Hin') _ _ Hp').
  - destruct Hc as (_ & Hs & Ha), Hc' as (_ & Hs' & Ha').
    repeat split; congruence.
Qed.

(** X2: the order in which the tasks are enumerated changes neither the
    value [lowmem_shrink] returns nor the state it leaves, nor whether it
    kills; the tasks killed under two orders are candidates of the same
    process type with the same [oom_adj] and the same [tasksize]. *)
Theorem lowmem_shrink_enumeration_order (P : module_params) (g : module_state)
    (sc : shrink_control) (k : kernel_view) (l l' : list task_struct) :
  Permutation l l' ->
  let min_adj := resolve_min_adj P (other_free_of k) (other_file_of k) in
  let r := lowmem_shrink P g sc (with_tasks k l) in
  let r' := lowmem_shrink P g sc (with_tasks k l') in
  ret r = ret r' /\
  state_after r = state_after r' /\
  match killed r, killed r' with
  | Some v, Some v' => candidate_of P min_adj v = candidate_of P min_adj v'
  | None, None => True
  | _, _ => False
  end.
Proof.
  intros Hperm min_adj r r'. subst r r'.
  unfold lowmem_shrink, scan_pass, death_outstanding, reclaimable,
    other_free_of, other_file_of, with_tasks.
  cbn [jiffies global_page_state tasks].
  fold (other_free_of k) (other_file_of k) (reclaimable k). fold min_adj.
  destruct (match lowmem_deathpending g with
            | Some _ => time_before_eq (jiffies k) (lowmem_deathpending_timeout g)
            | None => false
            end); [repeat split|].
  destruct ((nr_to_scan sc <=? 0) || (min_adj =? OOM_ADJUST_MAX + 1));
    [repeat split|].
  rewrite !kill_loop_managed.
  destruct (scan_tasks_perm_cells P min_adj KILLABLE_PROCESS l l' Hperm)
    as (Hs0 & _ & Hk0).
  destruct (scan_tasks_perm_cells P min_adj DO_NOT_KILL_PROCESS l l' Hperm)
    as (Hs1 & _ & Hk1).
  destruct (scan_tasks_perm_cells P min_adj DO_NOT_KILL_SYSTEM_PROCESS l l' Hperm)
    as (Hs2 & _ & Hk2).
  cbv zeta in *.
  set (st := scan_tasks P min_adj (initial_selection min_adj) l) in *.
  set (st' := scan_tasks P min_adj (initial_selection min_adj) l') in *.
  destruct (get (selected st) KILLABLE_PROCESS),
           (get (selected st') KILLABLE_PROCESS); try contradiction;
    [cbn [ret state_after killed]; rewrite Hs0; repeat split; exact Hk0|].
  destruct (get (selected st) DO_NOT_KILL_PROCESS),
           (get (selected st') DO_NOT_KILL_PROCESS); try contradiction;
    [cbn [ret state_after killed]; rewrite Hs1; repeat split; exact Hk1|].
  destruct (get (selected st) DO_NOT_KILL_SYSTEM_PROCESS),
           (get (selected st') DO_NOT_KILL_SYSTEM_PROCESS); try contradiction;
    [cbn [ret state_after killed]; rewrite Hs2; repeat split; exact Hk2|].
  repeat split.
Qed.

(** *** The threshold walk, continued *)

(** The two ways the walk can end. *)
Lemma minfree_loop_cases (n : nat) (i : Z) (P : module_params) (f c : Z) :
  (exists j, i <= j < i + Z.of_nat n /\
     below_minfree P f c j = true /\
     (forall j', i <= j' < j -> below_minfree P f c j' = false) /\
     fst (minfree_loop n i P f c) = adj_at P j) \/
  ((forall j, i <= j < i + Z.of_nat n -> below_minfree P f c j = false) /\
   fst (minfree_loop n i P f c) = OOM_ADJUST_MAX + 1).
Proof.
  revert i. induction n as [|n IH]; intros i.
  - right. split; [intros j Hj; lia | reflexivity].
  - cbn [minfree_loop]. destruct (below_minfree P f c i) eqn:Hb.
    + left. exists i. split; [lia|]. split; [exact Hb|].
      split; [intros j' Hj'; lia | reflexivity].
    + cbn [fst]. destruct (IH (i + 1)) as [(j & Hj & Hhit & Hbefore & Hres)|[Hmiss Hres]].
      * left. exists j. split; [lia|]. split; [exact Hhit|]. split; [|exact Hres].
        intros j' Hj'. destruct (Z.eq_dec j' i) as [->|]; [exact Hb|].
        apply Hbefore. lia.
      * right. split; [|exact Hres]. intros j Hj.
        destruct (Z.eq_dec j i) as [->|]; [exact Hb|]. apply Hmiss. lia.
Qed.

Lemma resolve_min_adj_cases (P : module_params) (f c : Z) :
  (exists j, in_use P j /\
     below_minfree P f c j = true /\
     (forall j', 0 <= j' < j -> below_minfree P f c j' = false) /\
     resolve_min_adj P f c = adj_at P j) \/
  ((forall j, in_use P j -> below_minfree P f c j = false) /\
   resolve_min_adj P f c = OOM_ADJUST_MAX + 1).
Proof.
  unfold resolve_min_adj, threshold_walk, in_use.
  destruct (minfree_loop_cases (Z.to_nat (array_size P)) 0 P f c)
    as [(j & Hj & Hhit & Hbefore & Hres)|[Hmiss Hres]].
  - left. exists j. split; [lia|]. repeat split; assumption.
  - right. split; [|exact Hres]. intros j Hj. apply Hmiss. lia.
Qed.

(** The walk sees the page counts through the test of the entries only. *)
Lemma minfree_loop_same_tests (n : nat) (i : Z) (P : module_params) (f c f' c' : Z) :
  (forall j, i <= j < i + Z.of_nat n ->
     below_minfree P f c j = below_minfree P f' c' j) ->
  minfree_loop n i P f c = minfree_loop n i P f' c'.
Proof.
  revert i. induction n as [|n IH]; intros i Hsame; [reflexivity|].
  cbn [minfree_loop]. rewrite (Hsame i) by lia.
  rewrite (IH (i + 1)); [reflexivity|]. intros j Hj. apply Hsame. lia.
Qed.

(** X7: less memory never raises the threshold.  When the [lowmem_adj]
    entries in use are in ascending order and none is above
    OOM_ADJUST_MAX + 1, lowering the free count or the cache count (both
    non-negative [int] values) can only lower [min_adj] or leave it as it
    is. *)
Theorem resolve_min_adj_monotone (P : module_params) (f c f' c' : Z) :
  32 <= BITS_PER_LONG ->
  0 <= f' <= f -> f <= INT_MAX ->
  0 <= c' <= c -> c <= INT_MAX ->
  (forall i j, in_use P i -> in_use P j -> i <= j -> adj_at P i <= adj_at P j) ->
  (forall i, in_use P i -> adj_at P i <= OOM_ADJUST_MAX + 1) ->
  resolve_min_adj P f' c' <= resolve_min_adj P f c.
Proof.
  intros Hb Hf Hfmax Hc Hcmax Hasc Hcap.
  assert (Hweaker : forall j, below_minfree P f c j = true ->
                      below_minfree P f' c' j = true).
  { intros j Hj.
    apply below_minfree_counts in Hj; [|assumption|lia|lia].
    apply below_minfree_counts; [assumption|lia|lia|lia]. }
  destruct (resolve_min_adj_cases P f c)
    as [(j & Hj & Hhit & _ & ->)|[_ ->]];
    destruct (resolve_min_adj_cases P f' c')
      as [(j' & Hj' & _ & Hbefore' & ->)|[Hmiss' ->]].
  - apply Hasc; trivial.
    destruct (Z.le_gt_cases j' j) as [|Hgt]; [assumption|].
    specialize (Hweaker j Hhit).
    rewrite Hbefore' in Hweaker; [discriminate|]. unfold in_use in Hj. lia.
  - apply Hweaker in Hhit. rewrite (Hmiss' j Hj) in Hhit. discriminate.
  - now apply Hcap.
  - lia.
Qed.

(** X8: cache pages count like free pages.  For non-negative [int] counts
    the threshold walk depends on the larger of the two counts only: it
    reads the same entries and ends with the same [min_adj] as for that
    count given twice, and so also when the two counts are swapped. *)
Theorem threshold_walk_larger_count (P : module_params) (f c : Z) :
  32 <= BITS_PER_LONG ->
  0 <= f <= INT_MAX -> 0 <= c <= INT_MAX ->
  threshold_walk P f c = threshold_walk P (Z.max f c) (Z.max f c) /\
  threshold_walk P f c = threshold_walk P c f.
Proof.
  intros Hb Hf Hc.
  assert (Hmax : forall f c, 0 <= f <= INT_MAX -> 0 <= c <= INT_MAX ->
            threshold_walk P f c = threshold_walk P (Z.max f c) (Z.max f c)).
  { clear f c Hf Hc. intros f c Hf Hc.
    unfold threshold_walk. apply minfree_loop_same_tests. intros j _.
    destruct (below_minfree P f c j) eqn:H1;
      destruct (below_minfree P (Z.max f c) (Z.max f c) j) eqn:H2; trivial.
    - apply below_minfree_counts in H1; [|assumption..].
      assert (H3 : below_minfree P (Z.max f c) (Z.max f c) j = true)
        by (apply below_minfree_counts; [assumption|lia|lia|lia]).
      congruence.
    - apply below_minfree_counts in H2; [|assumption|lia|lia].
      assert (H3 : below_minfree P f c j = true)
        by (apply below_minfree_counts; [assumption|lia|lia|lia]).
      congruence. }
  split; [now apply Hmax|].
  rewrite (Hmax f c), (Hmax c f) by assumption. now rewrite Z.max_comm.
Qed.

(** X9: with an empty threshold table, that is as soon as one of the two
    configured lengths is zero or less, no entry is read and
    [lowmem_shrink] never kills: whatever the state, the request and the
    tasks, it sends no signal and leaves the module state as it was. *)
Theorem empty_table_never_kills (P : module_params) (g : module_state)
    (sc : shrink_control) (k : kernel_view) :
  lowmem_adj_size P <= 0 \/ lowmem_minfree_size P <= 0 ->
  evaluated_entries P (other_free_of k) (other_file_of k) = [] /\
  killed (lowmem_shrink P g sc k) = None /\
  state_after (lowmem_shrink P g sc k) = g.
Proof.
  intros Hempty.
  assert (Hsize : Z.to_nat (array_size P) = O)
    by (rewrite array_size_min; unfold ARRAY_SIZE_lowmem_adj; lia).
  split.
  - unfold evaluated_entries, threshold_walk. now rewrite Hsize.
  - assert (Hadj : resolve_min_adj P (other_free_of k) (other_file_of k)
                   = OOM_ADJUST_MAX + 1)
      by (unfold resolve_min_adj, threshold_walk; now rewrite Hsize).
    unfold lowmem_shrink. destruct (death_outstanding g k); [now split|].
    rewrite scan_pass_report by now right. now split.
Qed.

(** X10: a task whose [oom_adj] is below every [lowmem_adj] entry in use
    is never killed, whatever the memory pressure. *)
Theorem below_all_adj_never_killed (P : module_params) (g : module_state)
    (sc : shrink_control) (k : kernel_view) (v : task_struct) (sig : signal_struct) :
  signal v = Some sig ->
  (forall i, in_use P i -> oom_adj sig < adj_at P i) ->
  killed (lowmem_shrink P g sc k) <> Some v.
Proof.
  intros Hsig Hlow Hk.
  destruct (lowmem_shrink_kill_inv _ _ _ _ _ Hk) as (_ & _ & Hadj & t & Hsel & _).
  destruct (final_selection_cells _ _ _ _ Hsel) as [_ Hc].
  destruct (candidate_of_inv _ _ _ _ _ _ Hc)
    as (m & sig' & _ & Hsig' & _ & Ha & _ & Hge & _).
  rewrite Hsig in Hsig'. injection Hsig' as <-.
  destruct (resolve_min_adj_cases P (other_free_of k) (other_file_of k))
    as [(j & Hj & _ & _ & Hres)|[_ Hres]]; [|contradiction].
  specialize (Hlow j Hj). lia.
Qed.

Lemma to_ulong_negative (z : Z) :
  32 <= BITS_PER_LONG -> - 2 ^ 31 <= z < 0 -> 2 ^ 31 <= to_ulong z.
Proof.
  intros Hb Hz. pose proof (pow2_32_le_ulong Hb) as Hpow.
  unfold to_ulong, to_unsigned.
  rewrite <- (Z.mod_add z 1 (2 ^ BITS_PER_LONG)) by lia.
  rewrite Z.mod_small; lia.
Qed.

(** X14: [other_free] and [other_file] are [int] values compared with
    [size_t] entries, so a negative one (more shared-memory pages than
    file pages, for instance) is read as a huge count.  With every
    [lowmem_minfree] entry in use at most 2^31, no entry then passes the
    test and [lowmem_shrink] kills nothing, however little memory is
    free. *)
Theorem negative_count_never_kills (P : module_params) (g : module_state)
    (sc : shrink_control) (k : kernel_view) :
  32 <= BITS_PER_LONG ->
  other_free_of k < 0 \/ other_file_of k < 0 ->
  (forall i, in_use P i -> minfree_at P i <= 2 ^ 31) ->
  resolve_min_adj P (other_free_of k) (other_file_of k) = OOM_ADJUST_MAX + 1 /\
  killed (lowmem_shrink P g sc k) = None /\
  state_after (lowmem_shrink P g sc k) = g.
Proof.
  intros Hb Hneg Hsmall.
  assert (Hadj : resolve_min_adj P (other_free_of k) (other_file_of k)
                 = OOM_ADJUST_MAX + 1).
  { destruct (resolve_min_adj_cases P (other_free_of k) (other_file_of k))
      as [(j & Hj & Hhit & _)|[_ Hres]]; [|exact Hres].
    specialize (Hsmall j Hj). unfold below_minfree in Hhit.
    apply andb_true_iff in Hhit as [Hfree Hfile].
    apply Z.ltb_lt in Hfree, Hfile.
    pose proof (to_int_range (global_page_state k NR_FREE_PAGES)) as Hr1.
    pose proof (to_int_range (to_ulong (global_page_state k NR_FILE_PAGES -
                                        global_page_state k NR_SHMEM))) as Hr2.
    fold (other_free_of k) in Hr1. fold (other_file_of k) in Hr2.
    destruct Hneg as [Hn|Hn].
    - pose proof (to_ulong_negative (other_free_of k) Hb ltac:(lia)). lia.
    - pose proof (to_ulong_negative (other_file_of k) Hb ltac:(lia)). lia. }
  split; [exact Hadj|].
  unfold lowmem_shrink. destruct (death_outstanding g k); [now split|].
  rewrite scan_pass_report by now right. now split.
Qed.

(** *** The classifier, continued *)

(** X11: an entry that is shorter than the process name cannot protect
    it, since the name is looked for inside the entry: when every entry of
    both lists is shorter than the name, the process is killable. *)
Theorem shorter_entries_never_protect (P : module_params) (proc_name : string) :
  strstr_contract ->
  donotkill_wf (donotkill_proc P) -> donotkill_wf (donotkill_sysproc P) ->
  (forall tok,
     In tok (names (donotkill_proc P)) \/ In tok (names (donotkill_sysproc P)) ->
     (String.length tok < String.length proc_name)%nat) ->
  classify P proc_name = KILLABLE_PROCESS.
Proof.
  intros Hstr Hu Hs Hshort.
  assert (Hno : forall d, donotkill_wf d ->
            (forall tok, In tok (names d) ->
               (String.length tok < String.length proc_name)%nat) ->
            is_in_donotkill_list proc_name d = false).
  { intros d Hwf Hd. destruct (is_in_donotkill_list proc_name d) eqn:Hin; [|reflexivity].
    apply (is_in_donotkill_list_protects _ _ Hstr Hwf) in Hin
      as (_ & tok & Htok & Hocc).
    apply occurs_in_length in Hocc. specialize (Hd tok Htok). lia. }
  unfold classify, is_in_donotkill_proc_list, is_in_donotkill_sysproc_list.
  rewrite (Hno _ Hu), (Hno _ Hs); [reflexivity | |]; intros tok Htok; apply Hshort;
    [now right | now left].
Qed.

(** X12: a process whose name is itself an entry of a list that is
    switched on is protected: as a user process when the user list holds
    it, also when the system list holds it too; as a system process when
    only the system list protects it. *)
Theorem listed_name_protected (P : module_params) (proc_name : string) :
  strstr_contract ->
  donotkill_wf (donotkill_proc P) -> donotkill_wf (donotkill_sysproc P) ->
  (enabled (donotkill_proc P) <> 0 -> In proc_name (names (donotkill_proc P)) ->
     classify P proc_name = DO_NOT_KILL_PROCESS) /\
  (enabled (donotkill_sysproc P) <> 0 -> In proc_name (names (donotkill_sysproc P)) ->
     ~ protects (donotkill_proc P) proc_name ->
     classify P proc_name = DO_NOT_KILL_SYSTEM_PROCESS).
Proof.
  intros Hstr Hu Hs.
  assert (Hlisted : forall d, donotkill_wf d -> enabled d <> 0 ->
            In proc_name (names d) -> is_in_donotkill_list proc_name d = true).
  { intros d Hwf Hon Hin. apply (is_in_donotkill_list_protects _ _ Hstr Hwf).
    split; [exact Hon|]. exists proc_name. split; [exact Hin | apply occurs_in_refl]. }
  unfold classify, is_in_donotkill_proc_list, is_in_donotkill_sysproc_list.
  split.
  - intros Hon Hin. now rewrite (Hlisted _ Hu Hon Hin).
  - intros Hon Hin Hnot. rewrite (Hlisted _ Hs Hon Hin).
    destruct (is_in_donotkill_list proc_name (donotkill_proc P)) eqn:Huser;
      [|reflexivity].
    now apply (is_in_donotkill_list_protects _ _ Hstr Hu) in Huser.
Qed.

(** *** Sorted tables and the highest-ranking victim *)

(** X15: the bands of a sorted table.  With the [lowmem_minfree] entries
    in use in ascending order and non-negative [int] counts, [min_adj] is
    the [lowmem_adj] of entry [i] when the larger of the free and cache
    counts is below [lowmem_minfree[i]] and, for [i] above 0, not below
    [lowmem_minfree[i - 1]]; it stays OOM_ADJUST_MAX + 1 when that count is
    not below the last entry in use. *)
Theorem resolve_min_adj_band (P : module_params) (f c i : Z) :
  32 <= BITS_PER_LONG ->
  0 <= f <= INT_MAX -> 0 <= c <= INT_MAX ->
  (forall j j', in_use P j -> in_use P j' -> j <= j' ->
     minfree_at P j <= minfree_at P j') ->
  in_use P i ->
  (Z.max f c < minfree_at P i ->
   (i = 0 \/ minfree_at P (i - 1) <= Z.max f c) ->
   resolve_min_adj P f c = adj_at P i) /\
  (i = array_size P - 1 -> minfree_at P i <= Z.max f c ->
   resolve_min_adj P f c = OOM_ADJUST_MAX + 1).
Proof.
  intros Hb Hf Hc Hasc Hi.
  assert (Hmiss : forall j, in_use P j -> minfree_at P j <= Z.max f c ->
            below_minfree P f c j = false).
  { intros j Hj Hle. destruct (below_minfree P f c j) eqn:Hbm; [|reflexivity].
    apply (below_minfree_counts P _ _ j Hb Hf Hc) in Hbm. lia. }
  unfold in_use in *. split.
  - intros Hbelow Hprev. unfold resolve_min_adj, threshold_walk.
    apply minfree_loop_hit.
    + lia.
    + apply below_minfree_counts; trivial. lia.
    + intros j Hj. apply Hmiss; [unfold in_use; lia|].
      destruct Hprev as [->|Hprev]; [lia|].
      specialize (Hasc j (i - 1)). unfold in_use in Hasc. lia.
  - intros Hlast Hle. unfold resolve_min_adj, threshold_walk.
    apply minfree_loop_miss. intros j Hj. apply Hmiss; [unfold in_use; lia|].
    specialize (Hasc j i). unfold in_use in Hasc. lia.
Qed.

Lemma classify_lists_off (P : module_params) (proc_name : string) :
  enabled (donotkill_proc P) = 0 -> enabled (donotkill_sysproc P) = 0 ->
  classify P proc_name = KILLABLE_PROCESS.
Proof.
  intros Hu Hs.
  unfold classify, is_in_donotkill_proc_list, is_in_donotkill_sysproc_list,
    is_in_donotkill_list.
  now rewrite Hu, Hs.
Qed.

(** X16: the task [lowmem_shrink] kills ranks highest among the
    candidates of its own process type: none of them has a greater
    [oom_adj], and none with the same [oom_adj] has a greater [tasksize].
    With both do-not-kill lists switched off this holds among all
    candidates. *)
Theorem victim_ranks_highest (P : module_params) (g : module_state)
    (sc : shrink_control) (k : kernel_view) (v : task_struct) :
  killed (lowmem_shrink P g sc k) = Some v ->
  let min_adj := resolve_min_adj P (other_free_of k) (other_file_of k) in
  exists a s,
    candidate_of P min_adj v = Some (classify P (comm v), a, s) /\
    (forall q a' s', In q (tasks k) ->
       candidate_of P min_adj q = Some (classify P (comm v), a', s') ->
       ranks_no_lower a s a' s') /\
    (enabled (donotkill_proc P) = 0 -> enabled (donotkill_sysproc P) = 0 ->
     forall q t a' s', In q (tasks k) ->
       candidate_of P min_adj q = Some (t, a', s') ->
       ranks_no_lower a s a' s').
Proof.
  intros Hk min_adj. subst min_adj.
  destruct (lowmem_shrink_kill_inv _ _ _ _ _ Hk) as (_ & _ & _ & t & Hsel & _).
  pose proof (scan_tasks_cells P
                (resolve_min_adj P (other_free_of k) (other_file_of k))
                t (tasks k)) as Hcells.
  unfold final_selection in Hsel. cbv zeta in Hsel, Hcells.
  rewrite Hsel in Hcells. destruct Hcells as (_ & Hc & Htop).
  destruct (candidate_of_inv _ _ _ _ _ _ Hc) as (_ & _ & _ & _ & Ht & _).
  rewrite Ht in Hc, Htop.
  eexists _, _. split; [exact Hc|]. split; [exact Htop|].
  intros Hu Hs q u a' s' Hin Hq.
  apply (Htop q a' s' Hin).
  destruct (candidate_of_inv _ _ _ _ _ _ Hq) as (_ & _ & _ & _ & Hclass & _).
  rewrite Hq, Hclass, !classify_lists_off by assumption. reflexivity.
Qed.

End Lowmemorykiller.

(** ** The results on concrete inputs *)

(** The parameters of a 32-bit build: [OOM_ADJUST_MAX] is 15, a tick is
    1/100 s. *)
#[local] Notation "'shrink32'" :=
  (lowmem_shrink 32 15 100 (linux_time_before_eq 32) c_strstr).
#[local] Notation "'reachable32'" :=
  (reachable 32 15 100 (linux_time_before_eq 32) c_strstr).

(** C1, counterexample to the claim as stated.  The user list is switched
    on and holds the entry "server", which occurs inside the process name
    "system_server": the claim asks for a protected class, the code finds
    the process killable, because it looks for the process name inside the
    entry.  Conversely the process "sys" is protected by the entry
    "system_server", which does not occur inside "sys". *)
Lemma classify_entry_inside_name_killable :
  entry_inside_name (donotkill_proc (protecting_params ["server"%string] []))
                    "system_server" /\
  classify c_strstr (protecting_params ["server"%string] []) "system_server"
    = KILLABLE_PROCESS /\
  ~ entry_inside_name (donotkill_proc (protecting_params ["system_server"%string] []))
                      "sys" /\
  ~ entry_inside_name (donotkill_sysproc (protecting_params ["system_server"%string] []))
                      "sys" /\
  classify c_strstr (protecting_params ["system_server"%string] []) "sys"
    = DO_NOT_KILL_PROCESS.
Proof.
  split; [|split; [|split; [|split]]].
  - split; [discriminate|]. split; [reflexivity|].
    exists "server"%string. split; [now left|].
    exists "system_"%string, EmptyString. reflexivity.
  - reflexivity.
  - intros (_ & _ & tok & [<-|[]] & Hocc).
    apply occurs_in_length in Hocc. simpl in Hocc. lia.
  - intros (_ & _ & tok & [] & _).
  - reflexivity.
Qed.

(** C1, the amended statement at a concrete input: the user list holds
    "system_server", the system list "surfaceflinger", the process is
    "server". *)
Lemma classify_name_inside_entry_witness :
  classify c_strstr
    (protecting_params ["system_server"%string] ["surfaceflinger"%string])
    "server" = DO_NOT_KILL_PROCESS.
Proof.
  apply (classify_name_inside_entry c_strstr
           (protecting_params ["system_server"%string] ["surfaceflinger"%string])
           "server").
  - exact c_strstr_contract.
  - split; [reflexivity | vm_compute; discriminate].
  - split; [reflexivity | vm_compute; discriminate].
  - split; [discriminate|].
    exists "system_server"%string. split; [now left|].
    exists "system_"%string, EmptyString. reflexivity.
Defined.

(** C10 at a concrete input: the system list alone holds a name. *)
Lemma empty_name_protected_witness :
  classify c_strstr (mk_params [] 0 [] 0 (mk_donotkill 0 [] 0)
                       (mk_donotkill 1 ["system_server"%string] 1))
           EmptyString <> KILLABLE_PROCESS.
Proof.
  apply (empty_name_protected c_strstr
           (mk_params [] 0 [] 0 (mk_donotkill 0 [] 0)
              (mk_donotkill 1 ["system_server"%string] 1))
           c_strstr_contract).
  simpl. split; [discriminate | lia].
Defined.

(** C2, the code at a failing input.  With the default thresholds, 1000
    free and 500 cache pages, a first call at tick 1000 kills "app_a" and
    sets the timeout to tick 1100, but leaves [lowmem_deathpending] NULL:
    no pending kill names the victim.  A second call at tick 1001, before
    the timeout and with no exit notification in between, scans the tasks
    again and sends a second SIGKILL. *)
Lemma second_trigger_kills_again :
  let first := shrink32 default_params initial_state (mk_sc 128) (pressure_view 1000) in
  let second := shrink32 default_params (state_after first) (mk_sc 128) (pressure_view 1001) in
  killed first = Some (sample_task 100 "app_a" 15 5000) /\
  ret first = 15400 - 5000 /\
  lowmem_deathpending (state_after first) = None /\
  lowmem_deathpending_timeout (state_after first) = 1000 + 100 /\
  linux_time_before_eq 32 1001 (lowmem_deathpending_timeout (state_after first)) = true /\
  killed second = Some (sample_task 100 "app_a" 15 5000) /\
  ret second = 15400 - 5000.
Proof. vm_compute. repeat split; reflexivity. Qed.

(** C3, the code at a failing input.  After the first call of C2 a kill
    is pending: SIGKILL was sent to "app_a" at tick 1000 and the timeout is
    tick 1100.  At tick 1001 "app_a" is still enumerated but has already
    given up its memory context, and no exit notification has arrived.  The
    state is one the module reaches, and [lowmem_deathpending] is NULL in
    it: the second call is not held back, selects "app_b" as a second
    victim and returns the 15400 reclaimable pages less the 4000 of
    "app_b", where the claim has it select nothing. *)
Lemma pending_kill_second_victim :
  let first := shrink32 default_params initial_state (mk_sc 128) (pressure_view 1000) in
  let second := shrink32 default_params (state_after first) (mk_sc 128) (dying_view 1001) in
  reachable32 (state_after first) /\
  killed first = Some (sample_task 100 "app_a" 15 5000) /\
  state_after first = mk_state None 1100 /\
  linux_time_before_eq 32 (jiffies (dying_view 1001))
    (lowmem_deathpending_timeout (state_after first)) = true /\
  lru_pages (dying_view 1001) = 15400 /\
  killed second = Some (sample_task 101 "app_b" 15 4000) /\
  ret second = 15400 - 4000.
Proof.
  split; [apply reachable_shrink, reachable_init|].
  vm_compute. repeat split; reflexivity.
Qed.

(** C4 at a concrete input: the default table, 1000 free and 500 cache
    pages.  Entry 0 (1536 pages) is the first above both counts. *)
Lemma resolve_min_adj_first_match_witness :
  resolve_min_adj 32 15 default_params 1000 500 = adj_at default_params 0.
Proof.
  apply (resolve_min_adj_first_match 32 15 default_params 1000 500).
  - lia.
  - unfold INT_MAX. lia.
  - unfold INT_MAX. lia.
  - vm_compute. split; [discriminate | reflexivity].
  - vm_compute. split; reflexivity.
  - intros j Hj. lia.
Defined.

(** The scenario of the specification: both entry 0 (1536) and entry 1
    (1024) are above 1000 free and 500 cache pages; the first one wins and
    the minimum priority is 0. *)
Example scenario_first_match :
  resolve_min_adj 32 15 scenario_params 1000 500 = 0 /\
  evaluated_entries 32 15 scenario_params 1000 500 = [0].
Proof. split; reflexivity. Qed.

(** C5 at a concrete input: a pass under memory pressure kills the task
    the kill loop takes from the final selection. *)
Lemma select_victim_class_order_witness :
  killed (shrink32 default_params initial_state (mk_sc 128) (pressure_view 1000))
  = select_victim (final_selection 32 15 c_strstr default_params (pressure_view 1000)).
Proof.
  refine (proj1 (proj2 (proj2 (proj2 (proj2
            (select_victim_class_order 32 15 100 (linux_time_before_eq 32) c_strstr
               (initial_selection 0)))))
            default_params initial_state (mk_sc 128) (pressure_view 1000) _ _ _)).
  - reflexivity.
  - simpl. lia.
  - vm_compute. discriminate.
Defined.

(** C6 at a concrete input: equal [oom_adj], the first task is larger. *)
Lemma scan_tie_break_witness :
  get (selected (scan_tasks c_strstr default_params 0 (initial_selection 0)
                   ([] ++ sample_task 100 "app_a" 15 5000
                       :: [] ++ sample_task 101 "app_b" 15 4000 :: [])))
      KILLABLE_PROCESS
  = Some (sample_task 100 "app_a" 15 5000).
Proof.
  refine (proj1 (proj2 (proj2
            (scan_tie_break c_strstr default_params 0
               (sample_task 100 "app_a" 15 5000) (sample_task 101 "app_b" 15 4000)
               KILLABLE_PROCESS 15 5000 15 4000 [] [] [] _ _ _))) _ _).
  - reflexivity.
  - reflexivity.
  - constructor.
  - reflexivity.
  - lia.
Defined.

(** C7 at a concrete input: a call with [nr_to_scan] zero in the state
    the module is loaded with. *)
Lemma report_only_pass_witness :
  shrink32 default_params initial_state (mk_sc 0) (pressure_view 1000)
  = mk_result 15400 initial_state None.
Proof.
  refine (proj1 (report_only_pass 32 15 100 (linux_time_before_eq 32) c_strstr
                   default_params initial_state (mk_sc 0) (pressure_view 1000)
                   _ _ _)).
  - lia.
  - constructor.
  - left. simpl. lia.
Defined.

(** With plenty of free memory no entry passes the threshold test and a
    call that asks for a scan only reports. *)
Example healthy_pass_reports :
  shrink32 default_params initial_state (mk_sc 128) (healthy_view 1000)
  = mk_result 15400 initial_state None.
Proof. reflexivity. Qed.

(** C9 at a concrete input: the state after a call that killed a task. *)
Lemma deathpending_always_null_witness :
  lowmem_deathpending
    (state_after (shrink32 default_params initial_state (mk_sc 128) (pressure_view 1000)))
  = None.
Proof.
  refine (proj1 (deathpending_always_null 32 15 100 (linux_time_before_eq 32) c_strstr
                   _ _)).
  apply reachable_shrink. apply reachable_init.
Defined.

(** ** The further properties on concrete inputs *)

(** Chooses among the four entries in use of a table and computes. *)
Ltac by_entries :=
  unfold in_use; intros;
  repeat match goal with
         | H : 0 <= ?i < array_size ?P |- _ =>
             let n := eval vm_compute in (array_size P) in
             change (array_size P) with n in H;
             assert (i = 0 \/ i = 1 \/ i = 2 \/ i = 3) by lia;
             clear H
         end;
  repeat match goal with
         | H : _ \/ _ |- _ => destruct H
         end;
  subst; first [lia | vm_compute; discriminate | vm_compute; reflexivity].

(** X2 at a concrete input: the two applications in either order. *)
Lemma lowmem_shrink_enumeration_order_witness :
  ret (shrink32 default_params initial_state (mk_sc 128)
         (with_tasks (pressure_view 1000)
            [sample_task 100 "app_a" 15 5000; sample_task 101 "app_b" 15 4000]))
  = ret (shrink32 default_params initial_state (mk_sc 128)
           (with_tasks (pressure_view 1000)
              [sample_task 101 "app_b" 15 4000; sample_task 100 "app_a" 15 5000])).
Proof.
  refine (proj1 (lowmem_shrink_enumeration_order 32 15 100 (linux_time_before_eq 32)
                   c_strstr default_params initial_state (mk_sc 128)
                   (pressure_view 1000) _ _ _)).
  apply perm_swap.
Defined.

(** X3 at a concrete input: the task killed under memory pressure. *)
Lemma victim_is_candidate_witness :
  In (sample_task 100 "app_a" 15 5000) (tasks (pressure_view 1000)).
Proof.
  refine (proj1 (proj2 (proj2 (proj2
            (victim_is_candidate 32 15 100 (linux_time_before_eq 32) c_strstr
               default_params initial_state (mk_sc 128) (pressure_view 1000)
               (sample_task 100 "app_a" 15 5000) _))))).
  reflexivity.
Defined.

(** X5 at a concrete input: 15400 reclaimable pages, 5000 of them the
    victim's. *)
Lemma kill_accounting_witness :
  exists m,
    mm (sample_task 100 "app_a" 15 5000) = Some m /\
    ret (shrink32 default_params initial_state (mk_sc 128) (pressure_view 1000))
    = lru_pages (pressure_view 1000) - tasksize_of m.
Proof.
  destruct (proj1 (kill_accounting 32 15 100 (linux_time_before_eq 32) c_strstr
                     default_params initial_state (mk_sc 128) (pressure_view 1000))
                  (sample_task 100 "app_a" 15 5000) eq_refl)
    as (m & Hm & _ & _ & Hexact).
  exists m. split; [exact Hm|]. apply Hexact.
  - lia.
  - vm_compute. split; discriminate.
Defined.

(** X6 at a concrete input: only protected tasks are running, and the
    user-protected one is killed. *)
Lemma protected_victim_last_resort_witness :
  Forall (not_candidate_for c_strstr guarded_params
            (resolve_min_adj 32 15 guarded_params
               (other_free_of (guarded_view 1000)) (other_file_of 32 (guarded_view 1000)))
            KILLABLE_PROCESS)
         (tasks (guarded_view 1000)).
Proof.
  refine (proj1 (protected_victim_last_resort 32 15 100 (linux_time_before_eq 32)
                   c_strstr guarded_params initial_state (mk_sc 128)
                   (guarded_view 1000) (sample_task 201 "system_server" 15 9000) _) _).
  - reflexivity.
  - reflexivity.
Defined.

(** X7 at a concrete input: the default table, from 3000 free pages down
    to 1000. *)
Lemma resolve_min_adj_monotone_witness :
  resolve_min_adj 32 15 default_params 1000 500
  <= resolve_min_adj 32 15 default_params 3000 500.
Proof.
  apply (resolve_min_adj_monotone 32 15 default_params 3000 500 1000 500).
  - lia.
  - lia.
  - unfold INT_MAX. lia.
  - lia.
  - unfold INT_MAX. lia.
  - by_entries.
  - by_entries.
Defined.

(** X8 at a concrete input. *)
Lemma threshold_walk_larger_count_witness :
  threshold_walk 32 15 default_params 1000 500
  = threshold_walk 32 15 default_params 500 1000.
Proof.
  refine (proj2 (threshold_walk_larger_count 32 15 default_params 1000 500 _ _ _));
    unfold INT_MAX; lia.
Defined.

(** X9 at a concrete input: no threshold configured, memory short. *)
Lemma empty_table_never_kills_witness :
  killed (shrink32 empty_table_params initial_state (mk_sc 128) (pressure_view 1000))
  = None.
Proof.
  refine (proj1 (proj2 (empty_table_never_kills 32 15 100 (linux_time_before_eq 32)
                          c_strstr empty_table_params initial_state (mk_sc 128)
                          (pressure_view 1000) _))).
  left. simpl. lia.
Defined.

(** X10 at a concrete input: a task with [oom_adj] -17 under the default
    table. *)
Lemma below_all_adj_never_killed_witness :
  killed (shrink32 default_params initial_state (mk_sc 128)
            (with_tasks (pressure_view 1000) [exempt_task]))
  <> Some exempt_task.
Proof.
  apply (below_all_adj_never_killed 32 15 100 (linux_time_before_eq 32) c_strstr
           default_params initial_state (mk_sc 128)
           (with_tasks (pressure_view 1000) [exempt_task])
           exempt_task (mk_signal (-17))).
  - reflexivity.
  - by_entries.
Defined.

(** X14 at a concrete input: 100 file pages of which 300 are counted as
    shared memory. *)
Lemma negative_count_never_kills_witness :
  killed (shrink32 default_params initial_state (mk_sc 128) (shmem_heavy_view 1000))
  = None.
Proof.
  refine (proj1 (proj2 (negative_count_never_kills 32 15 100 (linux_time_before_eq 32)
                          c_strstr default_params initial_state (mk_sc 128)
                          (shmem_heavy_view 1000) _ _ _))).
  - lia.
  - right. vm_compute. reflexivity.
  - by_entries.
Defined.

(** X11 at a concrete input: the entry "server" is shorter than the name
    "system_server". *)
Lemma shorter_entries_never_protect_witness :
  classify c_strstr (protecting_params ["server"%string] []) "system_server"
  = KILLABLE_PROCESS.
Proof.
  apply (shorter_entries_never_protect c_strstr
           (protecting_params ["server"%string] []) "system_server").
  - exact c_strstr_contract.
  - split; [reflexivity | vm_compute; discriminate].
  - split; [reflexivity | vm_compute; discriminate].
  - intros tok [[<-|[]]|[]]. simpl. lia.
Defined.

(** X12 at a concrete input. *)
Lemma listed_name_protected_witness :
  classify c_strstr guarded_params "system_server" = DO_NOT_KILL_PROCESS.
Proof.
  refine (proj1 (listed_name_protected c_strstr guarded_params "system_server"
                   c_strstr_contract _ _) _ _).
  - split; [reflexivity | vm_compute; discriminate].
  - split; [reflexivity | vm_compute; discriminate].
  - simpl. discriminate.
  - now left.
Defined.

(** X15 at a concrete input: 3000 pages fall in the band of entry 2 of the
    default table (2048 up to 4096). *)
Lemma resolve_min_adj_band_witness :
  resolve_min_adj 32 15 default_params 3000 500 = adj_at default_params 2.
Proof.
  refine (proj1 (resolve_min_adj_band 32 15 default_params 3000 500 2 _ _ _ _ _) _ _).
  - lia.
  - unfold INT_MAX. lia.
  - unfold INT_MAX. lia.
  - by_entries.
  - vm_compute. split; [discriminate | reflexivity].
  - vm_compute. reflexivity.
  - right. vm_compute. discriminate.
Defined.

(** X16 at a concrete input: the larger of two applications with the
    same [oom_adj] is killed. *)
Lemma victim_ranks_highest_witness :
  exists a s,
    candidate_of c_strstr default_params
      (resolve_min_adj 32 15 default_params
         (other_free_of (pressure_view 1000)) (other_file_of 32 (pressure_view 1000)))
      (sample_task 100 "app_a" 15 5000)
    = Some (KILLABLE_PROCESS, a, s) /\
    ranks_no_lower a s 15 4000.
Proof.
  destruct (victim_ranks_highest 32 15 100 (linux_time_before_eq 32) c_strstr
              default_params initial_state (mk_sc 128) (pressure_view 1000)
              (sample_task 100 "app_a" 15 5000) eq_refl)
    as (a & s & Hc & Htop & _).
  exists a, s. split; [exact Hc|].
  apply (Htop (sample_task 101 "app_b" 15 4000)).
  - right. now left.
  - reflexivity.
Defined.
